(** * Generative-Poster-App: a shallow embedding of [app2.py] (and of the
    blob generator of [app.py]) with the properties of its specification.

    Modelling conventions.
    - Python and NumPy floats are modelled as real numbers ([R]); [math.cos],
      [math.sin], [math.radians] and [math.pi] are Stdlib's [cos], [sin] and
      [PI].
    - The global state of Python's [random] module and of NumPy's legacy
      [np.random] generator are abstract state types [PyS] and [NpS] with the
      primitive draws the code uses ([random.random()], [random._randbelow],
      [np.random.rand]) and their seeding functions.  Everything [app2.py]
      draws is derived from these as CPython and NumPy derive it
      ([random.uniform], [random.choice], [random.randint]).
    - Matplotlib is modelled as the list of drawing commands issued on the
      figure, with the checks that can make the program raise: a negative
      figure size, a color string it cannot read (hex codes are modelled,
      color names are an abstract table), an alpha outside [[0, 1]] and an
      Agg canvas of [2^16] pixels or more.  The PNG encoder is an arbitrary
      function of the figure. *)

From Stdlib Require Import Reals Lra Lia Psatz List String Ascii ZArith Bool Permutation.
Import ListNotations.
Open Scope R_scope.

(** ** Python values used by the program *)

Inductive PyExc : Type :=
| ValueError
| IndexError.

(** A result of a Python call: a value or a raised exception. *)
Inductive PyResult (A : Type) : Type :=
| Ok (a : A)
| Raise (e : PyExc).
Arguments Ok {A} a.
Arguments Raise {A} e.

Definition Color : Type := (R * R * R)%type.

(** ** Random generators *)

(** The state of Python's [random] module. *)
Class PyRandom (S : Type) := {
  py_random : S -> R * S;               (* random.random() *)
  py_randbelow : nat -> S -> nat * S;   (* random._randbelow(n) *)
  py_seed : Z -> S                      (* random.seed(a) for an int a *)
}.

(** The state of NumPy's global [RandomState]. *)
Class NpRandom (T : Type) := {
  np_random_sample : T -> R * T;        (* one double of np.random.rand *)
  np_seed : Z -> T                      (* np.random.seed(seed), 0 <= seed < 2^32 *)
}.

(** The documented ranges of the primitive draws. *)
Class PyRandomOk (S : Type) `{PyRandom S} : Prop := {
  py_random_range : forall s, 0 <= fst (py_random s) < 1;
  py_randbelow_range : forall n s, (0 < n)%nat -> (fst (py_randbelow n s) < n)%nat
}.

Class NpRandomOk (T : Type) `{NpRandom T} : Prop := {
  np_random_range : forall t, 0 <= fst (np_random_sample t) < 1
}.

(** ** Matplotlib's color names *)

(** The colors [matplotlib.colors.to_rgb] reads from a string that is not a
    hex code: its table of names (the CSS4 names, the one-letter base colors,
    the ["tab:"] and ["xkcd:"] names, ["C0"] to ["C9"]), ["none"] and gray
    levels such as ["0.5"]; [None] stands for the [ValueError] of a string it
    refuses. *)
Class MplNames := {
  mpl_named : string -> option Color
}.

Section Program.

Context {PyS NpS : Type} `{PyRandom PyS} `{NpRandom NpS} `{MplNames}.

(** The program threads both global generators: a state monad over them. *)
Definition M (A : Type) : Type := PyS * NpS -> A * (PyS * NpS).

Definition ret {A} (a : A) : M A := fun g => (a, g).
Definition bind {A B} (m : M A) (k : A -> M B) : M B :=
  fun g => let (a, g') := m g in k a g'.

Local Notation "x <- m ;; k" := (bind m (fun x => k))
  (at level 61, m at next level, right associativity).

(** [random.random()] *)
Definition random_random : M R :=
  fun '(p, n) => let (r, p') := py_random p in (r, (p', n)).

(** [random._randbelow(k)] *)
Definition randbelow (k : nat) : M nat :=
  fun '(p, n) => let (i, p') := py_randbelow k p in (i, (p', n)).

(** [random.uniform(a, b)]: [a + (b - a) * self.random()]. *)
Definition uniform (a b : R) : M R :=
  u <- random_random ;; ret (a + (b - a) * u).

(** [random.choice(seq)]: [seq[self._randbelow(len(seq))]].  Every sequence
    the program passes is non-empty, so the default of [nth] is never read. *)
Definition choice {A} (d : A) (l : list A) : M A :=
  i <- randbelow (List.length l) ;; ret (nth i l d).

(** [random.randint(a, b)]: [a + self._randbelow(b - a + 1)]. *)
Definition randint (a b : Z) : M Z :=
  i <- randbelow (Z.to_nat (b - a + 1)) ;; ret (a + Z.of_nat i)%Z.

(** One double of [np.random.rand]. *)
Definition np_sample : M R :=
  fun '(p, n) => let (r, n') := np_random_sample n in (r, (p, n')).

(** [[ m for _ in range(k) ]], evaluated left to right. *)
Fixpoint repeatM {A} (k : nat) (m : M A) : M (list A) :=
  match k with
  | O => ret []
  | S k' => a <- m ;; l <- repeatM k' m ;; ret (a :: l)
  end.

(** [np.random.rand(k)] *)
Definition np_rand (k : nat) : M (list R) := repeatM k np_sample.

(** ** Color palette ([random_palette], app2.py lines 14-48) *)

Definition earth_tones : list Color :=
  [(42/100, 26/100, 15/100); (55/100, 47/100, 37/100); (62/100, 74/100, 55/100);
   (84/100, 78/100, 58/100); (40/100, 55/100, 30/100)].

Definition ocean_tones : list Color :=
  [(0, 3/10, 5/10); (1/10, 6/10, 8/10); (2/10, 8/10, 9/10);
   (0, 5/10, 4/10); (4/10, 9/10, 1)].

Definition sunset_tones : list Color :=
  [(1, 5/10, 0); (1, 2/10, 3/10); (8/10, 3/10, 6/10);
   (6/10, 2/10, 8/10); (9/10, 7/10, 3/10)].

Definition cyber_colors : list Color :=
  [(1, 0, 8/10); (0, 1, 1); (2/10, 2/10, 1);
   (1, 8/10, 1/10); (1/10, 0, 1/10)].

Definition pastel_color : M Color :=
  r <- random_random ;; g <- random_random ;; b <- random_random ;;
  ret (6/10 + 4/10 * r, 6/10 + 4/10 * g, 6/10 + 4/10 * b).

Definition neon_color : M Color :=
  r <- uniform (5/10) 1 ;; g <- uniform 0 1 ;; b <- uniform (5/10) 1 ;;
  ret (r, g, b).

(** [(base+0.1*random.random(),)*3] *)
Definition mono_color (base : R) : M Color :=
  u <- random_random ;; let v := base + 1/10 * u in ret (v, v, v).

Definition random_color : M Color :=
  r <- random_random ;; g <- random_random ;; b <- random_random ;; ret (r, g, b).

Definition random_palette (style : string) (k : nat) : M (list Color) :=
  if String.eqb style "pastel" then repeatM k pastel_color
  else if String.eqb style "neon" then repeatM k neon_color
  else if String.eqb style "monochrome" then
    base <- random_random ;; repeatM k (mono_color base)
  else if String.eqb style "earth" then repeatM k (choice (0, 0, 0) earth_tones)
  else if String.eqb style "ocean" then repeatM k (choice (0, 0, 0) ocean_tones)
  else if String.eqb style "sunset" then repeatM k (choice (0, 0, 0) sunset_tones)
  else if String.eqb style "cyberpunk" then repeatM k (choice (0, 0, 0) cyber_colors)
  else repeatM k random_color.

(** ** Shape generators (app2.py lines 50-78) *)

(** [np.linspace(start, stop, num, endpoint)]: [start + k * step] with
    [step = (stop - start) / div], [div = num - 1] when the end point is
    included (then the last sample is set to [stop]) and [div = num]
    otherwise. *)
Definition linspace (start stop : R) (num : nat) (endpoint : bool) : list R :=
  let div := if endpoint then (num - 1)%nat else num in
  let step := (stop - start) / INR div in
  let ys := map (fun k => start + INR k * step) (seq 0 num) in
  if endpoint && (1 <? num)%nat then removelast ys ++ [stop] else ys.

(** [center[0] + radii*np.cos(angles)], [center[1] + radii*np.sin(angles)] *)
Definition polar_x (c : R) (radii angles : list R) : list R :=
  map (fun '(rad, a) => c + rad * cos a) (combine radii angles).
Definition polar_y (c : R) (radii angles : list R) : list R :=
  map (fun '(rad, a) => c + rad * sin a) (combine radii angles).

(** [radii = r*(1+wobble*(np.random.rand(points)-0.5))] *)
Definition blob_radius (r wobble u : R) : R := r * (1 + wobble * (u - 1/2)).

Definition blob (center : R * R) (r : R) (points : nat) (wobble : R)
  : M (list R * list R) :=
  let angles := linspace 0 (2 * PI) points true in
  us <- np_rand points ;;
  let radii := map (blob_radius r wobble) us in
  ret (polar_x (fst center) radii angles, polar_y (snd center) radii angles).

(** [np.append(x, x[0])]; the arrays it is applied to are never empty. *)
Definition close_array (x : list R) : list R := x ++ [hd 0 x].

Definition shape (center : R * R) (r : R) (points : nat) (wobble : R)
  (shape_type : string) : M (list R * list R) :=
  if String.eqb shape_type "circle" then
    let angles := linspace 0 (2 * PI) points true in
    let radii := map (fun _ => r) angles in
    ret (polar_x (fst center) radii angles, polar_y (snd center) radii angles)
  else if String.eqb shape_type "polygon" then
    n_sides <- randint 3 8 ;;
    let angles := linspace 0 (2 * PI) (Z.to_nat n_sides) false in
    let radii := map (fun _ => r) angles in
    ret (close_array (polar_x (fst center) radii angles),
         close_array (polar_y (snd center) radii angles))
  else blob center r points wobble.

Definition rotate_point (cx cy angle : R) (pt : R * R) : R * R :=
  let (x, y) := pt in
  ((x - cx) * cos angle - (y - cy) * sin angle + cx,
   (x - cx) * sin angle + (y - cy) * cos angle + cy).

Definition rotate_coords (x y : list R) (cx cy angle : R) : list R * list R :=
  let pts := map (rotate_point cx cy angle) (combine x y) in
  (map fst pts, map snd pts).

(** ** Colors as strings *)

(** The characters Python's [int] strips ([str.isspace] on ASCII). *)
Definition py_isspace (c : ascii) : bool :=
  let n := nat_of_ascii c in
  ((9 <=? n) && (n <=? 13))%nat || ((28 <=? n) && (n <=? 32))%nat.

Definition hex_digit (c : ascii) : option Z :=
  let n := Z.of_nat (nat_of_ascii c) in
  if ((48 <=? n) && (n <=? 57))%Z then Some (n - 48)%Z
  else if ((97 <=? n) && (n <=? 102))%Z then Some (n - 87)%Z
  else if ((65 <=? n) && (n <=? 70))%Z then Some (n - 55)%Z
  else None.

Fixpoint hex_value (acc : Z) (l : list ascii) : option Z :=
  match l with
  | [] => Some acc
  | c :: l' =>
      match hex_digit c with
      | Some d => hex_value (16 * acc + d)%Z l'
      | None => None
      end
  end.

Fixpoint drop_while (f : ascii -> bool) (l : list ascii) : list ascii :=
  match l with
  | c :: l' => if f c then drop_while f l' else l
  | [] => []
  end.

(** [int(s, 16)] on the slices of at most two characters the program parses:
    surrounding whitespace, an optional sign, then at least one hex digit
    ([None] is the [ValueError]).  Longer forms ([0x] prefixes, underscores
    between digits) need three characters or more. *)
Definition py_int16 (s : string) : option Z :=
  let l := rev (drop_while py_isspace (rev (drop_while py_isspace (list_ascii_of_string s)))) in
  let signed :=
    match l with
    | "+"%char :: l' => (1%Z, l')
    | "-"%char :: l' => ((-1)%Z, l')
    | _ => (1%Z, l)
    end in
  match snd signed with
  | [] => None
  | ds => option_map (Z.mul (fst signed)) (hex_value 0 ds)
  end.

(** [s.lstrip("#")] *)
Definition lstrip_hash (s : string) : string :=
  string_of_list_ascii (drop_while (fun c => Ascii.eqb c "#"%char) (list_ascii_of_string s)).

(** [tuple(int(s.lstrip("#")[i:i+2],16)/255 for i in (0,2,4))] *)
Definition hex_to_rgb (s : string) : option Color :=
  let t := lstrip_hash s in
  match py_int16 (substring 0 2 t), py_int16 (substring 2 2 t),
        py_int16 (substring 4 2 t) with
  | Some r, Some g, Some b => Some (IZR r / 255, IZR g / 255, IZR b / 255)
  | _, _, _ => None
  end.

(** Matplotlib's reading of a hex color string ([matplotlib.colors.to_rgb]):
    ["#rrggbb"], ["#rrggbbaa"] and the short forms ["#rgb"], ["#rgba"] whose
    digits are doubled; [None] for any other string. *)
Definition mpl_hex_rgb (s : string) : option Color :=
  match list_ascii_of_string s with
  | "#"%char :: ds =>
      match map hex_digit ds with
      | [Some r1; Some r2; Some g1; Some g2; Some b1; Some b2]
      | [Some r1; Some r2; Some g1; Some g2; Some b1; Some b2; Some _; Some _] =>
          Some (IZR (16 * r1 + r2) / 255, IZR (16 * g1 + g2) / 255,
                IZR (16 * b1 + b2) / 255)
      | [Some r; Some g; Some b] | [Some r; Some g; Some b; Some _] =>
          Some (IZR (17 * r) / 255, IZR (17 * g) / 255, IZR (17 * b) / 255)
      | _ => None
      end
  | _ => None
  end.

(** [matplotlib.colors.to_rgb] on a string: a hex code, or else a color of
    the name table. *)
Definition mpl_to_rgb (s : string) : option Color :=
  match mpl_hex_rgb s with
  | Some c => Some c
  | None => mpl_named s
  end.

(** [luminance] (app2.py lines 9-11) *)
Definition luminance (rgb : Color) : R :=
  let '(r, g, b) := rgb in 299/1000 * r + 587/1000 * g + 114/1000 * b.

(** The text contrast fix (app2.py lines 130-137): the title color used, or
    the [ValueError] of an unparsable background. *)
Definition contrast_title (background title_color : string) : PyResult string :=
  match hex_to_rgb background with
  | None => Raise ValueError
  | Some bg_rgb =>
      let text_rgb := match hex_to_rgb title_color with
                      | Some c => c
                      | None => (0, 0, 0)
                      end in
      if Rlt_dec (Rabs (luminance bg_rgb - luminance text_rgb)) (1/2) then
        Ok (if Rlt_dec (luminance bg_rgb) (1/2) then "#FFFFFF"%string else "#000000"%string)
      else Ok title_color
  end.

(** [str.title()] on ASCII text. *)
Definition is_upper (c : ascii) : bool :=
  let n := nat_of_ascii c in ((65 <=? n) && (n <=? 90))%nat.
Definition is_lower (c : ascii) : bool :=
  let n := nat_of_ascii c in ((97 <=? n) && (n <=? 122))%nat.
Definition to_upper (c : ascii) : ascii :=
  if is_lower c then ascii_of_nat (nat_of_ascii c - 32) else c.
Definition to_lower (c : ascii) : ascii :=
  if is_upper c then ascii_of_nat (nat_of_ascii c + 32) else c.

Fixpoint title_chars (prev_cased : bool) (l : list ascii) : list ascii :=
  match l with
  | [] => []
  | c :: l' =>
      let cased := is_upper c || is_lower c in
      (if prev_cased then to_lower c else to_upper c) :: title_chars cased l'
  end.

Definition py_title (s : string) : string :=
  string_of_list_ascii (title_chars false (list_ascii_of_string s)).

(** ** Poster rendering ([render_poster], app2.py lines 81-159) *)

(** The keyword arguments of [render_poster]. *)
Record Params : Type := {
  style : string;
  shape_type : string;
  n_layers : Z;
  wobble : R;
  background : string;
  title_color : string;
  seed : option Z;
  shadow_offset : R;
  brightness_strength : R;
  alpha_min : R;
  alpha_max : R;
  light_angle : R;
  rotation_range : R;
  width : Z;
  height : Z
}.

(** A matplotlib drawing command. *)
Inductive Cmd : Type :=
| Fill (xs ys : list R) (color : Color) (alpha : R)     (* plt.fill *)
| Text (x y : R) (text : string) (color : string).      (* plt.text *)

(** The figure handed to [plt.savefig]. *)
Record Figure : Type := {
  fig_size : R * R;
  facecolor : string;
  commands : list Cmd
}.

Definition dpi : R := 150.

(** [math.radians] *)
Definition radians (deg : R) : R := deg * (PI / 180).

(** [np.clip(c, 0, 1)] on a color. *)
Definition clip01 (x : R) : R := Rmin (Rmax x 0) 1.
Definition clip_color (c : Color) : Color :=
  let '(r, g, b) := c in (clip01 r, clip01 g, clip01 b).

Definition scale_color (c : Color) (k : R) : Color :=
  let '(r, g, b) := c in (r * k, g * k, b * k).

(** [brightness_factor = 0.75 + brightness_strength*(i / max(1, n_layers))] *)
Definition brightness_factor (strength : R) (i : nat) (n : Z) : R :=
  3/4 + strength * (INR i / IZR (Z.max 1 n)).

(** The shadow displacement [(dx, dy)] (app2.py lines 103-104). *)
Definition shadow_delta (offset angle_deg : R) : R * R :=
  (offset * cos (radians angle_deg), - offset * sin (radians angle_deg)).

(** One iteration of the layer loop: the shadow fill, then the lit fill. *)
Definition layer (p : Params) (palette : list Color) (i : nat) : M (list Cmd) :=
  let '(dx, dy) := shadow_delta (shadow_offset p) (light_angle p) in
  cx <- uniform (5/100) (95/100) ;;
  cy <- uniform (5/100) (95/100) ;;
  rr <- uniform (2/100) (22/100) ;;
  angle <- uniform (- rotation_range p) (rotation_range p) ;;
  sh <- shape (cx + dx, cy + dy) rr 1000 (wobble p) (shape_type p) ;;
  let '(x_s, y_s) := rotate_coords (fst sh) (snd sh) (cx + dx) (cy + dy) angle in
  lit <- shape (cx, cy) rr 1000 (wobble p) (shape_type p) ;;
  let '(x, y) := rotate_coords (fst lit) (snd lit) cx cy angle in
  base_color <- choice (0, 0, 0) palette ;;
  let color := clip_color (scale_color base_color
                 (brightness_factor (brightness_strength p) i (n_layers p))) in
  alpha <- uniform (alpha_min p) (alpha_max p) ;;
  ret [Fill x_s y_s (0, 0, 0) (35/100); Fill x y color alpha].

(** [Artist.set_alpha], run by [plt.fill] on its [alpha] argument: a
    [ValueError] for an alpha outside [[0, 1]]. *)
Definition alpha_ok (a : R) : bool :=
  if Rle_dec 0 a then if Rle_dec a 1 then true else false else false.

Definition fill_ok (c : Cmd) : bool :=
  match c with
  | Fill _ _ _ a => alpha_ok a
  | Text _ _ _ _ => true
  end.

(** The layer loop (app2.py lines 106-128).  A fill whose alpha matplotlib
    refuses raises [ValueError] and ends the loop; the shadow's alpha 0.35 is
    always accepted, so checking the lit fill once the iteration's draws are
    made gives the same result as checking each fill when it is issued. *)
Fixpoint layers (p : Params) (palette : list Color) (is : list nat)
  : M (PyResult (list Cmd)) :=
  match is with
  | [] => ret (Ok [])
  | i :: is' =>
      c <- layer p palette i ;;
      if forallb fill_ok c then
        r <- layers p palette is' ;;
        ret (match r with Ok cs => Ok (c ++ cs) | Raise e => Raise e end)
      else ret (Raise ValueError)
  end.

Definition title_texts (p : Params) (tc : string) : list Cmd :=
  [Text (1/100) (97/100) "3D like Generative Poster" tc;
   Text (1/100) (93/100) "Week 4 • Arts & Big Data" tc;
   Text (1/100) (895/1000)
     ("Style: " ++ py_title (style p) ++ " / Shape: " ++ py_title (shape_type p)) tc].

(** Everything after the seeding, up to [plt.savefig].  [plt.figure]
    refuses a negative size and a face color matplotlib cannot read with a
    [ValueError]; [plt.text] refuses the title color the same way. *)
Definition draw_poster (p : Params) : M (PyResult Figure) :=
  if ((width p <? 0) || (height p <? 0))%Z then ret (Raise ValueError)
  else match mpl_to_rgb (background p) with
  | None => ret (Raise ValueError)
  | Some _ =>
      palette <- random_palette (style p) 40 ;;
      r <- layers p palette (seq 0 (Z.to_nat (n_layers p))) ;;
      ret (match r with
           | Raise e => Raise e
           | Ok cmds =>
               match contrast_title (background p) (title_color p) with
               | Raise e => Raise e
               | Ok tc =>
                   match mpl_to_rgb tc with
                   | None => Raise ValueError
                   | Some _ =>
                       Ok {| fig_size := (IZR (width p) / dpi, IZR (height p) / dpi);
                             facecolor := background p;
                             commands := cmds ++ title_texts p tc |}
                   end
               end
           end)
  end.

(** [random.seed(seed); np.random.seed(seed)], then the drawing.  [entropy]
    is the state both generators take from the operating system when
    [seed is None]; NumPy refuses seeds outside [[0, 2^32)]. *)
Definition render_figure (entropy : PyS * NpS) (p : Params) : M (PyResult Figure) :=
  fun g =>
    match seed p with
    | None => draw_poster p entropy
    | Some s =>
        if ((0 <=? s) && (s <? 2 ^ 32))%Z then draw_poster p (py_seed s, np_seed s)
        else (Raise ValueError, (py_seed s, snd g))
    end.

(** Agg's canvas limit: [plt.savefig] first renders the whole figure at
    [dpi], and Agg refuses with a [ValueError] an image of [2^16] pixels or
    more in either direction. *)
Definition agg_fits (size : R * R) : bool :=
  let (w, h) := size in
  if Rlt_dec (w * dpi) 65536 then if Rlt_dec (h * dpi) 65536 then true else false
  else false.

(** [render_poster]: the PNG bytes [plt.savefig] writes for the figure. *)
Definition render_poster (savefig : Figure -> list Byte.byte)
  (entropy : PyS * NpS) (p : Params) : M (PyResult (list Byte.byte)) :=
  fun g =>
    let (r, g') := render_figure entropy p g in
    (match r with
     | Ok f => if agg_fits (fig_size f) then Ok (savefig f) else Raise ValueError
     | Raise e => Raise e
     end, g').

End Program.

(** ** Streamlit controls of app2.py (lines 165-191) *)

Definition is_hex_digit (c : ascii) : bool :=
  match hex_digit c with Some _ => true | None => false end.

(** The strings [st.color_picker] returns: ["#"] and six hex digits. *)
Definition hex6b (s : string) : bool :=
  match list_ascii_of_string s with
  | c :: ds => Ascii.eqb c "#"%char && Nat.eqb (List.length ds) 6 && forallb is_hex_digit ds
  | [] => false
  end.


(** ** The first version of the app (app.py)

    It draws from NumPy only.  Besides [random_sample], it uses the legacy
    [RandomState]'s bounded integers ([random_interval], by [shuffle]) and
    its Gaussian draws ([legacy_gauss], by [normal]). *)

Class NpInterval (T : Type) := {
  np_random_interval : nat -> T -> nat * T    (* random_interval(max), in [0, max] *)
}.

Class NpIntervalOk (T : Type) `{NpInterval T} : Prop := {
  np_random_interval_range : forall n t, (fst (np_random_interval n t) <= n)%nat
}.

Class NpGauss (T : Type) := {
  np_gauss : T -> R * T                        (* legacy_gauss: one standard normal *)
}.

Module App1.

Section App1.

Context {PyS NpS : Type} `{NpRandom NpS} `{NpInterval NpS} `{NpGauss NpS}.

Local Notation "x <- m ;; k" := (@bind PyS NpS _ _ m (fun x => k))
  (at level 61, m at next level, right associativity).

(** [np.random.seed(seed)] when a seed is given. *)
Definition np_reseed (seed : option Z) : @M PyS NpS (PyResult unit) :=
  fun '(p, t) =>
    match seed with
    | None => (Ok tt, (p, t))
    | Some s =>
        if ((0 <=? s) && (s <? 2 ^ 32))%Z then (Ok tt, (p, np_seed s))
        else (Raise ValueError, (p, t))
    end.

(** [np.random.uniform(low, high)]: [low + (high - low) * random_sample()]. *)
Definition np_uniform (low high : R) : @M PyS NpS R :=
  u <- np_sample ;; ret (low + (high - low) * u).

Definition np_interval (n : nat) : @M PyS NpS nat :=
  fun '(p, t) => let (j, t') := np_random_interval n t in (j, (p, t')).

(** [np.random.normal(loc, scale)]: [loc + scale * legacy_gauss()]; a
    negative scale raises. *)
Definition np_normal (loc scale : R) : @M PyS NpS (PyResult R) :=
  if Rlt_dec scale 0 then ret (Raise ValueError)
  else fun '(p, t) => let (z, t') := np_gauss t in (Ok (loc + scale * z), (p, t')).

(** [x[i] = v]; the indices the program writes are in range. *)
Fixpoint list_set {A} (l : list A) (i : nat) (v : A) : list A :=
  match l, i with
  | [], _ => []
  | _ :: l', O => v :: l'
  | a :: l', S i' => a :: list_set l' i' v
  end.

(** The loop of [np.random.shuffle] on a 1-d array: for [i] from [n - 1]
    down to 1, [j = random_interval(i)], then [buf = x[j]; x[j] = x[i];
    x[i] = buf]. *)
Fixpoint shuffle_from (i : nat) (x : list R) : @M PyS NpS (list R) :=
  match i with
  | O => ret x
  | S i' =>
      j <- np_interval i ;;
      shuffle_from i' (list_set (list_set x j (nth i x 0)) i (nth j x 0))
  end.

Definition np_shuffle (x : list R) : @M PyS NpS (list R) :=
  shuffle_from (List.length x - 1) x.

(** Python's float [a % b]: [a - b * floor(a / b)]. *)
Definition py_fmod (a b : R) : R := a - b * IZR (Int_part (a / b)).

(** The hue sector of [random_palette] (app.py lines 18-23). *)
Definition hue_rgb (h c x : R) : Color :=
  if Rlt_dec h (1/6) then (c, x, 0)
  else if Rlt_dec h (2/6) then (x, c, 0)
  else if Rlt_dec h (3/6) then (0, c, x)
  else if Rlt_dec h (4/6) then (0, x, c)
  else if Rlt_dec h (5/6) then (x, 0, c)
  else (c, 0, x).

(** The channels [np.array(rgb) + m] of one color of [random_palette] from
    its hue, saturation and lightness, before [np.clip] (app.py lines
    15-23). *)
Definition hsl_rgb (h s l : R) : Color :=
  let c := (1 - Rabs (2 * l - 1)) * s in
  let x := c * (1 - Rabs (py_fmod (h * 6) 2 - 1)) in
  let m := l - c / 2 in
  let '(r, g, b) := hue_rgb h c x in
  (r + m, g + m, b + m).

(** [tuple(np.clip(np.array(rgb) + m, 0, 1))] (app.py line 24). *)
Definition hsl_color (h s l : R) : Color := clip_color (hsl_rgb h s l).

Fixpoint palette_colors (s_range l_range : R * R) (hues : list R)
  : @M PyS NpS (list Color) :=
  match hues with
  | [] => ret []
  | h :: hs =>
      s <- np_uniform (fst s_range) (snd s_range) ;;
      l <- np_uniform (fst l_range) (snd l_range) ;;
      cs <- palette_colors s_range l_range hs ;;
      ret (hsl_color h s l :: cs)
  end.

(** [random_palette] (app.py lines 6-25). *)
Definition random_palette (n : nat) (s_range l_range : R * R) (seed : option Z)
  : @M PyS NpS (PyResult (list Color)) :=
  r <- np_reseed seed ;;
  match r with
  | Raise e => ret (Raise e)
  | Ok _ =>
      hues <- np_shuffle (linspace 0 1 n false) ;;
      cs <- palette_colors s_range l_range hues ;;
      ret (Ok cs)
  end.

(** [np.interp(v, np.arange(n), fp)]: [fp[0]] left of 0, [fp[-1]] from
    [n - 1] on, linear in between. *)
Definition interp_arange (n : nat) (fp : list R) (v : R) : R :=
  if Rle_dec v 0 then nth 0 fp 0
  else if Rle_dec (INR (n - 1)) v then last fp 0
  else let j := Z.to_nat (Int_part v) in
       nth j fp 0 + (v - INR j) * (nth (S j) fp 0 - nth j fp 0).

(** The outline of [generate_blob] from its noise samples (app.py lines
    33 and 35-38). *)
Definition blob_outline (center : R * R) (radius : R) (smoothness resolution : nat)
  (base_noise : list R) : list R * list R :=
  let angles := linspace 0 (2 * PI) resolution true in
  let interp := map (interp_arange smoothness base_noise)
                    (linspace 0 (INR smoothness) resolution true) in
  let r := map (fun v => radius * (1 + v)) interp in
  (polar_x (fst center) r angles, polar_y (snd center) r angles).

Fixpoint normals (k : nat) (loc scale : R) : @M PyS NpS (PyResult (list R)) :=
  match k with
  | O => ret (Ok [])
  | S k' =>
      z <- np_normal loc scale ;;
      match z with
      | Raise e => ret (Raise e)
      | Ok v => zs <- normals k' loc scale ;;
                ret (match zs with Ok vs => Ok (v :: vs) | Raise e => Raise e end)
      end
  end.

(** [generate_blob] (app.py lines 29-39). *)
Definition generate_blob (center : R * R) (radius wobble : R) (smoothness resolution : nat)
  (seed : option Z) : @M PyS NpS (PyResult (list R * list R)) :=
  r <- np_reseed seed ;;
  match r with
  | Raise e => ret (Raise e)
  | Ok _ =>
      noise <- normals smoothness 0 wobble ;;
      ret (match noise with
           | Ok base_noise => Ok (blob_outline center radius smoothness resolution base_noise)
           | Raise e => Raise e
           end)
  end.

End App1.

(** [luminance] (app.py lines 43-45). *)
Definition luminance (rgb : Color) : R :=
  let '(r, g, b) := rgb in 2126/10000 * r + 7152/10000 * g + 722/10000 * b.

(** [draw_poster]'s [bg_color]: a color string or an RGB tuple. *)
Inductive BgColor : Type :=
| BgStr (s : string)
| BgRgb (c : Color).

(** [str.lower()] on ASCII text. *)
Definition py_lower (s : string) : string :=
  string_of_list_ascii (map to_lower (list_ascii_of_string s)).

(** The adaptive text color of [draw_poster] (app.py lines 80-84). *)
Definition text_color (bg_color : BgColor) : string :=
  match bg_color with
  | BgStr s => if String.eqb (py_lower s) "black" then "white" else "black"
  | BgRgb c => if Rlt_dec (luminance c) (1/2) then "white" else "black"
  end.

End App1.

(** ** Concrete generators

    Used to evaluate the program on explicit draws: a generator that always
    draws the same number, and scripted generators that read the draws from
    sequences at a position. *)

Definition const_py (c : R) : PyRandom unit := {|
  py_random := fun s => (c, s);
  py_randbelow := fun _ s => (0%nat, s);
  py_seed := fun _ => tt
|}.

Definition const_np (c : R) : NpRandom unit := {|
  np_random_sample := fun s => (c, s);
  np_seed := fun _ => tt
|}.

(** A part of matplotlib's name table: the CSS4 names ["white"], ["black"]
    and ["yellow"] and the base colors ["w"] and ["k"]. *)
Definition some_names_table : list (string * Color) :=
  [("white", (1, 1, 1)); ("black", (0, 0, 0)); ("yellow", (1, 1, 0));
   ("w", (1, 1, 1)); ("k", (0, 0, 0))]%string.

Definition some_names : MplNames := {|
  mpl_named := fun s =>
    option_map snd (find (fun e => String.eqb (fst e) s) some_names_table)
|}.

Record Script : Type := {
  script_floats : nat -> R;
  script_ints : nat -> nat;
  script_pos : nat
}.

Definition advance (s : Script) : Script :=
  {| script_floats := script_floats s; script_ints := script_ints s;
     script_pos := S (script_pos s) |}.

Definition script_py : PyRandom Script := {|
  py_random := fun s => (script_floats s (script_pos s), advance s);
  py_randbelow := fun _ s => (script_ints s (script_pos s), advance s);
  py_seed := fun _ => {| script_floats := fun _ => 0; script_ints := fun _ => 0%nat;
                         script_pos := 0 |}
|}.

Definition script_np : NpRandom Script := {|
  np_random_sample := fun s => (script_floats s (script_pos s), advance s);
  np_seed := fun _ => {| script_floats := fun _ => 0; script_ints := fun _ => 0%nat;
                         script_pos := 0 |}
|}.

(** ** Properties *)

Section Proofs.

Context {PyS NpS : Type} `{PyRandom PyS} `{NpRandom NpS} `{MplNames}.

Lemma bind_eq {A B} (m : @M PyS NpS A) (k : A -> @M PyS NpS B) (g : PyS * NpS) :
  bind m k g = k (fst (m g)) (snd (m g)).
Proof. unfold bind. destruct (m g). reflexivity. Qed.

(** C1: with a seed set, [render_poster] returns the same result whatever
    the state of the global generators before the call and whatever the
    operating system's entropy: same seed and same parameters give the same
    bytes. *)
Theorem render_poster_deterministic (savefig : Figure -> list Byte.byte)
  (e1 e2 g1 g2 : PyS * NpS) (p : Params) (s : Z) (Hseed : seed p = Some s) :
  fst (render_poster savefig e1 p g1) = fst (render_poster savefig e2 p g2).
Proof.
  unfold render_poster, render_figure. rewrite Hseed.
  destruct ((0 <=? s) && (s <? 2 ^ 32))%Z; [|reflexivity].
  destruct (draw_poster p (py_seed s, np_seed s)). reflexivity.
Qed.

(** C8: every polygon outline is explicitly closed: its first point is its
    last point, for every center, radius and drawn side count. *)
Theorem polygon_outline_closed (center : R * R) (r wobble : R) (points : nat)
  (g : PyS * NpS) :
  let '(x, y) := fst (shape center r points wobble "polygon" g) in
  nth 0 x 0 = last x 0 /\ nth 0 y 0 = last y 0.
Proof.
  unfold shape; simpl. rewrite bind_eq. simpl.
  unfold close_array. split.
  - rewrite last_last. destruct (polar_x _ _ _); reflexivity.
  - rewrite last_last. destruct (polar_y _ _ _); reflexivity.
Qed.

Lemma repeatM_Forall {A} (P : A -> Prop) (m : @M PyS NpS A) :
  (forall g, P (fst (m g))) -> forall k g, Forall P (fst (repeatM k m g)).
Proof.
  intros Hm k. induction k as [|k IH]; intro g; simpl.
  - constructor.
  - rewrite bind_eq, bind_eq. simpl. constructor; [apply Hm | apply IH].
Qed.

Definition in_unit (x : R) : Prop := 0 <= x <= 1.

Definition color_in_unit (c : Color) : Prop :=
  let '(r, g, b) := c in in_unit r /\ in_unit g /\ in_unit b.

Lemma random_random_range `{!PyRandomOk PyS} (g : PyS * NpS) :
  0 <= fst (random_random g) < 1.
Proof.
  destruct g as [ps ns]. unfold random_random.
  pose proof (py_random_range ps) as Hr. destruct (py_random ps). exact Hr.
Qed.

Lemma uniform_range `{!PyRandomOk PyS} (a b : R) (g : PyS * NpS) :
  exists u, 0 <= u < 1 /\ fst (uniform a b g) = a + (b - a) * u.
Proof.
  unfold uniform. rewrite bind_eq. exists (fst (random_random g)).
  split; [apply random_random_range | reflexivity].
Qed.

Lemma choice_in `{!PyRandomOk PyS} {A} (d : A) (l : list A) (g : PyS * NpS) :
  l <> [] -> In (fst (choice d l g)) l.
Proof.
  intro Hl. unfold choice. rewrite bind_eq. simpl. apply nth_In.
  destruct g as [ps ns]. unfold randbelow.
  assert (Hlen : (0 < List.length l)%nat) by (destruct l; [congruence | simpl; lia]).
  pose proof (py_randbelow_range (List.length l) ps Hlen) as Hb.
  destruct (py_randbelow (List.length l) ps). exact Hb.
Qed.

Lemma tones_in_unit `{!PyRandomOk PyS} (tones : list Color) (g : PyS * NpS) :
  Forall color_in_unit tones ->
  tones <> [] -> color_in_unit (fst (choice (0, 0, 0) tones g)).
Proof.
  intros Hall Hne. rewrite Forall_forall in Hall. apply Hall, choice_in, Hne.
Qed.

Ltac unit_tones :=
  match goal with |- Forall _ ?l => unfold l end;
  repeat (apply Forall_cons; [unfold color_in_unit, in_unit; lra |]);
  apply Forall_nil.

Ltac tones_nonempty :=
  unfold earth_tones, ocean_tones, sunset_tones, cyber_colors; discriminate.

Ltac draw_ranges :=
  repeat match goal with
  | |- context [fst (random_random ?g)] =>
      let u := fresh "u" in let Hu := fresh "Hu" in
      pose proof (random_random_range g) as Hu;
      set (u := fst (random_random g)) in *; clearbody u
  end.

Lemma uniform_between `{!PyRandomOk PyS} (a b : R) (g : PyS * NpS) :
  a <= b -> a <= fst (uniform a b g) <= b.
Proof.
  intro Hab. destruct (uniform_range a b g) as [u [Hu ->]]. split; nra.
Qed.

(** C2 (corrected): every palette style but [monochrome] yields colors whose
    channels lie in [[0, 1]]; a [monochrome] palette draws one base gray
    [b] in [[0, 1)] and each entry is the unclamped [b + 0.1 u], [u] in
    [[0, 1)], replicated over the three channels. *)
Theorem random_palette_channels `{!PyRandomOk PyS} (style : string) (k : nat)
  (g : PyS * NpS) :
  (style <> "monochrome"%string ->
     Forall color_in_unit (fst (random_palette style k g))) /\
  (style = "monochrome"%string ->
     exists b, 0 <= b < 1 /\
     Forall (fun c => exists u, 0 <= u < 1 /\ c = (b + 1/10 * u, b + 1/10 * u, b + 1/10 * u))
            (fst (random_palette style k g))).
Proof.
  split.
  - intro Hne. apply String.eqb_neq in Hne.
    unfold random_palette. rewrite Hne.
    repeat match goal with
    | |- context [if String.eqb style ?x then _ else _] => destruct (String.eqb style x)
    end;
    apply repeatM_Forall; intro g'.
    + unfold pastel_color. rewrite !bind_eq. unfold ret; cbn [fst snd]. draw_ranges.
      unfold in_unit. repeat split; lra.
    + unfold neon_color. rewrite !bind_eq. unfold ret; cbn [fst snd].
      repeat match goal with
      | |- context [fst (uniform ?a ?b ?h)] =>
          let v := fresh "v" in let Hv := fresh "Hv" in
          assert (Hv : a <= fst (uniform a b h) <= b) by (apply uniform_between; lra);
          set (v := fst (uniform a b h)) in *; clearbody v
      end.
      unfold in_unit. repeat split; lra.
    + apply tones_in_unit; [unit_tones | tones_nonempty].
    + apply tones_in_unit; [unit_tones | tones_nonempty].
    + apply tones_in_unit; [unit_tones | tones_nonempty].
    + apply tones_in_unit; [unit_tones | tones_nonempty].
    + unfold random_color. rewrite !bind_eq. unfold ret; cbn [fst snd]. draw_ranges.
      unfold in_unit. repeat split; lra.
  - intros ->. cbn [random_palette String.eqb Ascii.eqb Bool.eqb andb]. rewrite bind_eq.
    exists (fst (random_random g)). split; [apply random_random_range|].
    apply repeatM_Forall. intro g'. unfold mono_color. rewrite bind_eq. unfold ret; cbn [fst snd].
    exists (fst (random_random g')). split; [apply random_random_range | reflexivity].
Qed.

End Proofs.

Section Layers.

Context {PyS NpS : Type} `{PyRandom PyS} `{NpRandom NpS}.

(** The outline one [shape] call draws once rotated about its own center
    (app2.py lines 116-117 and 122-123). *)
Definition drawn_outline (center : R * R) (rr w : R) (kind : string) (angle : R)
  (g : PyS * NpS) : list R * list R :=
  let sh := fst (shape center rr 1000 w kind g) in
  rotate_coords (fst sh) (snd sh) (fst center) (snd center) angle.

Lemma let_pair_eq {A B C} (pr : A * B) (f : A -> B -> C) :
  (let '(a, b) := pr in f a b) = f (fst pr) (snd pr).
Proof. destruct pr. reflexivity. Qed.

(** One iteration of the layer loop, unfolded: a shadow fill and a lit fill
    of two [shape] calls with the same kind, radius, wobble and rotation, the
    shadow's center displaced by [shadow_delta]. *)
Lemma layer_eq (p : Params) (palette : list Color) (i : nat) (g : PyS * NpS) :
  let dx := fst (shadow_delta (shadow_offset p) (light_angle p)) in
  let dy := snd (shadow_delta (shadow_offset p) (light_angle p)) in
  exists cx cy rr angle g1 j alpha,
    fst (layer p palette i g) =
      [Fill (fst (drawn_outline (cx + dx, cy + dy) rr (wobble p) (shape_type p) angle g1))
            (snd (drawn_outline (cx + dx, cy + dy) rr (wobble p) (shape_type p) angle g1))
            (0, 0, 0) (35/100);
       Fill (fst (drawn_outline (cx, cy) rr (wobble p) (shape_type p) angle
                   (snd (shape (cx + dx, cy + dy) rr 1000 (wobble p) (shape_type p) g1))))
            (snd (drawn_outline (cx, cy) rr (wobble p) (shape_type p) angle
                   (snd (shape (cx + dx, cy + dy) rr 1000 (wobble p) (shape_type p) g1))))
            (clip_color (scale_color (nth j palette (0, 0, 0))
               (brightness_factor (brightness_strength p) i (n_layers p))))
            alpha]
    /\ (PyRandomOk PyS -> palette <> [] -> (j < List.length palette)%nat).
Proof.
  intros dx dy. unfold layer. rewrite let_pair_eq. fold dx dy.
  rewrite bind_eq; cbv beta.
  set (cx := fst (uniform _ _ g)). set (g1 := snd (uniform _ _ g)).
  rewrite bind_eq; cbv beta.
  set (cy := fst (uniform _ _ g1)). set (g2 := snd (uniform _ _ g1)).
  rewrite bind_eq; cbv beta.
  set (rr := fst (uniform _ _ g2)). set (g3 := snd (uniform _ _ g2)).
  rewrite bind_eq; cbv beta.
  set (angle := fst (uniform _ _ g3)). set (g4 := snd (uniform _ _ g3)).
  rewrite bind_eq; cbv beta. rewrite let_pair_eq.
  set (g5 := snd (shape _ _ _ _ _ g4)).
  rewrite bind_eq; cbv beta. rewrite let_pair_eq.
  set (g6 := snd (shape _ _ _ _ _ g5)).
  unfold choice at 1. rewrite bind_eq; cbv beta.
  set (j := fst (randbelow (List.length palette) g6)).
  rewrite bind_eq; cbv beta. rewrite bind_eq; cbv beta.
  set (alpha := fst (uniform _ _ _)).
  unfold ret. cbn [fst].
  exists cx, cy, rr, angle, g4, j, alpha. split; [reflexivity|].
  intros Hok Hne. unfold j, randbelow. destruct g6 as [ps ns].
  assert (Hlen : (0 < List.length palette)%nat)
    by (destruct palette; [congruence | simpl; lia]).
  pose proof (py_randbelow_range (List.length palette) ps Hlen) as Hb.
  destruct (py_randbelow (List.length palette) ps). exact Hb.
Qed.

Lemma polar_x_shift (c d : R) (radii angles : list R) :
  polar_x (c + d) radii angles = map (fun v => v + d) (polar_x c radii angles).
Proof.
  unfold polar_x. rewrite map_map. apply map_ext. intros [rad a]. ring.
Qed.

Lemma polar_y_shift (c d : R) (radii angles : list R) :
  polar_y (c + d) radii angles = map (fun v => v + d) (polar_y c radii angles).
Proof.
  unfold polar_y. rewrite map_map. apply map_ext. intros [rad a]. ring.
Qed.

(** Rotating a translated outline about the translated pivot translates the
    rotated outline. *)
Lemma rotate_coords_shift (x y : list R) (cx cy dx dy angle : R) :
  rotate_coords (map (fun v => v + dx) x) (map (fun v => v + dy) y)
                (cx + dx) (cy + dy) angle =
  (map (fun v => v + dx) (fst (rotate_coords x y cx cy angle)),
   map (fun v => v + dy) (snd (rotate_coords x y cx cy angle))).
Proof.
  unfold rotate_coords. cbn [fst snd]. f_equal.
  - revert y. induction x as [|a x IH]; intros [|b y]; cbn; try reflexivity.
    f_equal; [ring | apply IH].
  - revert y. induction x as [|a x IH]; intros [|b y]; cbn; try reflexivity.
    f_equal; [ring | apply IH].
Qed.

(** A circle outline draws nothing: moving its center translates it. *)
Lemma drawn_circle_shift (cx cy dx dy rr w angle : R) (g g' : PyS * NpS) :
  drawn_outline (cx + dx, cy + dy) rr w "circle" angle g =
  (map (fun v => v + dx) (fst (drawn_outline (cx, cy) rr w "circle" angle g')),
   map (fun v => v + dy) (snd (drawn_outline (cx, cy) rr w "circle" angle g'))).
Proof.
  unfold drawn_outline, shape. cbn [String.eqb Ascii.eqb Bool.eqb andb].
  unfold ret. cbn [fst snd].
  rewrite polar_x_shift, polar_y_shift. apply rotate_coords_shift.
Qed.

(** C3 (corrected): the lit fill color of layer [i] of [n] is a palette
    color scaled by [0.75 + brightness_strength * (i / max(1, n))] and
    clamped to [[0, 1]] per channel. *)
Theorem layer_lit_color `{!PyRandomOk PyS} (p : Params) (palette : list Color)
  (i : nat) (g : PyS * NpS) (Hne : palette <> []) :
  exists xs ys x y base alpha,
    In base palette /\
    fst (layer p palette i g) =
      [Fill xs ys (0, 0, 0) (35/100);
       Fill x y (clip_color (scale_color base
                  (3/4 + brightness_strength p * (INR i / IZR (Z.max 1 (n_layers p))))))
            alpha].
Proof.
  destruct (layer_eq p palette i g) as (cx & cy & rr & angle & g1 & j & alpha & Heq & Hj).
  rewrite Heq. do 4 eexists. exists (nth j palette (0, 0, 0)), alpha.
  split; [apply nth_In, Hj; assumption | reflexivity].
Qed.

(** The shadow and the lit shape of a layer are drawn by two
    calls of [shape] with the same kind, radius, wobble, point count and
    rotation angle, the shadow's center displaced by [(dx, dy)].  Each call
    draws its own randomness (the polygon side count, the blob radii), so the
    silhouettes agree only for the circle, whose shadow is the lit outline
    translated by [(dx, dy)]. *)
Theorem layer_shadow_same_kind (p : Params) (palette : list Color) (i : nat)
  (g : PyS * NpS) :
  let dx := fst (shadow_delta (shadow_offset p) (light_angle p)) in
  let dy := snd (shadow_delta (shadow_offset p) (light_angle p)) in
  exists cx cy rr angle g1 g2 color alpha,
    fst (layer p palette i g) =
      [Fill (fst (drawn_outline (cx + dx, cy + dy) rr (wobble p) (shape_type p) angle g1))
            (snd (drawn_outline (cx + dx, cy + dy) rr (wobble p) (shape_type p) angle g1))
            (0, 0, 0) (35/100);
       Fill (fst (drawn_outline (cx, cy) rr (wobble p) (shape_type p) angle g2))
            (snd (drawn_outline (cx, cy) rr (wobble p) (shape_type p) angle g2))
            color alpha]
    /\ (shape_type p = "circle"%string ->
        drawn_outline (cx + dx, cy + dy) rr (wobble p) (shape_type p) angle g1 =
        (map (fun v => v + dx) (fst (drawn_outline (cx, cy) rr (wobble p) (shape_type p) angle g2)),
         map (fun v => v + dy) (snd (drawn_outline (cx, cy) rr (wobble p) (shape_type p) angle g2)))).
Proof.
  intros dx dy.
  destruct (layer_eq p palette i g) as (cx & cy & rr & angle & g1 & j & alpha & Heq & _).
  do 5 eexists. eexists. do 2 eexists. split; [exact Heq|].
  intro Hk. rewrite Hk. apply drawn_circle_shift.
Qed.

(** C5 (corrected): the shadow is drawn at the lit center displaced by
    [shadow_offset * (cos a, - sin a)], [a] the light angle converted from
    degrees to radians: the vertical component is negated. *)
Theorem layer_shadow_offset (p : Params) (palette : list Color) (i : nat)
  (g : PyS * NpS) :
  let a := light_angle p * (PI / 180) in
  exists cx cy rr angle g1 g2 color alpha,
    fst (layer p palette i g) =
      [Fill (fst (drawn_outline (cx + shadow_offset p * cos a, cy - shadow_offset p * sin a)
                    rr (wobble p) (shape_type p) angle g1))
            (snd (drawn_outline (cx + shadow_offset p * cos a, cy - shadow_offset p * sin a)
                    rr (wobble p) (shape_type p) angle g1))
            (0, 0, 0) (35/100);
       Fill (fst (drawn_outline (cx, cy) rr (wobble p) (shape_type p) angle g2))
            (snd (drawn_outline (cx, cy) rr (wobble p) (shape_type p) angle g2))
            color alpha].
Proof.
  intro a.
  destruct (layer_eq p palette i g) as (cx & cy & rr & angle & g1 & j & alpha & Heq & _).
  exists cx, cy, rr, angle, g1. do 3 eexists. rewrite Heq.
  unfold shadow_delta, radians. cbn [fst snd].
  replace (cy + - shadow_offset p * sin (light_angle p * (PI / 180)))
    with (cy - shadow_offset p * sin a) by (unfold a; ring).
  reflexivity.
Qed.

(** The lit fill's alpha is one [random.uniform(alpha_min, alpha_max)]. *)
Lemma layer_alpha_eq (p : Params) (palette : list Color) (i : nat) (g : PyS * NpS) :
  exists xs ys x y c (g' : PyS * NpS),
    fst (layer p palette i g) =
      [Fill xs ys (0, 0, 0) (35/100);
       Fill x y c (fst (uniform (alpha_min p) (alpha_max p) g'))].
Proof.
  unfold layer. rewrite let_pair_eq.
  do 5 (rewrite bind_eq; cbv beta). rewrite let_pair_eq.
  rewrite bind_eq; cbv beta. rewrite let_pair_eq.
  rewrite bind_eq; cbv beta. rewrite bind_eq; cbv beta.
  unfold ret. cbn [fst]. do 5 eexists. eexists. reflexivity.
Qed.

End Layers.

Section Validation.

Context {PyS NpS : Type} `{PyRandom PyS} `{NpRandom NpS} `{MplNames}.

Definition outcome {A} (r : PyResult A) : option PyExc :=
  match r with
  | Ok _ => None
  | Raise e => Some e
  end.

(** [p] with other alpha bounds. *)
Definition set_alpha (p : Params) (lo hi : R) : Params := {|
  style := style p; shape_type := shape_type p; n_layers := n_layers p;
  wobble := wobble p; background := background p; title_color := title_color p;
  seed := seed p; shadow_offset := shadow_offset p;
  brightness_strength := brightness_strength p;
  alpha_min := lo; alpha_max := hi; light_angle := light_angle p;
  rotation_range := rotation_range p; width := width p; height := height p
|}.

(** Whether [draw_poster] raises, and what, when no fill is refused: decided
    by the figure size, the background and the title color only. *)
Definition draw_outcome (p : Params) : option PyExc :=
  if ((width p <? 0) || (height p <? 0))%Z then Some ValueError
  else match mpl_to_rgb (background p) with
  | None => Some ValueError
  | Some _ =>
      match contrast_title (background p) (title_color p) with
      | Raise e => Some e
      | Ok tc => match mpl_to_rgb tc with None => Some ValueError | Some _ => None end
      end
  end.

Lemma alpha_ok_unit (a : R) : in_unit a -> alpha_ok a = true.
Proof.
  unfold in_unit, alpha_ok. intros [Ha0 Ha1].
  destruct (Rle_dec 0 a); [destruct (Rle_dec a 1)|]; first [reflexivity | lra].
Qed.

Lemma alpha_ok_outside (a : R) : 1 < a \/ a < 0 -> alpha_ok a = false.
Proof.
  unfold alpha_ok. intro Ha.
  destruct (Rle_dec 0 a); [destruct (Rle_dec a 1)|]; first [reflexivity | lra].
Qed.

(** The layer loop raises nothing but [ValueError]. *)
Lemma layers_raise (p : Params) (palette : list Color) (is : list nat)
  (g : PyS * NpS) (e : PyExc) :
  fst (layers p palette is g) = Raise e -> e = ValueError.
Proof.
  revert g. induction is as [|i is IH]; intro g; cbn [layers].
  - unfold ret. cbn [fst]. discriminate.
  - rewrite bind_eq. cbv beta.
    destruct (forallb fill_ok (fst (layer p palette i g))).
    + rewrite bind_eq. unfold ret. cbn [fst].
      destruct (fst (layers p palette is (snd (layer p palette i g)))) eqn:E;
        [discriminate|].
      intro Hr. injection Hr as <-. exact (IH _ E).
    + unfold ret. cbn [fst]. intro Hr. injection Hr as <-. reflexivity.
Qed.

(** With both alpha bounds in [[0, 1]] matplotlib accepts every fill. *)
Lemma layers_ok `{!PyRandomOk PyS} (p : Params) (palette : list Color) (is : list nat)
  (g : PyS * NpS) :
  in_unit (alpha_min p) -> in_unit (alpha_max p) ->
  exists cs, fst (layers p palette is g) = Ok cs.
Proof.
  intros [Ha1 Ha2] [Hb1 Hb2]. revert g. induction is as [|i is IH]; intro g; cbn [layers].
  - eexists. reflexivity.
  - rewrite bind_eq. cbv beta.
    destruct (layer_alpha_eq p palette i g) as (xs & ys & x & y & c & g' & Heq).
    destruct (uniform_range (alpha_min p) (alpha_max p) g') as [u [Hu Hau]].
    rewrite Heq. cbn [forallb fill_ok].
    rewrite (alpha_ok_unit (35/100)) by (unfold in_unit; lra).
    rewrite (alpha_ok_unit (fst (uniform (alpha_min p) (alpha_max p) g')))
      by (rewrite Hau; unfold in_unit; split; nra).
    cbn [andb]. rewrite bind_eq. unfold ret. cbn [fst].
    destruct (IH (snd (layer p palette i g))) as [cs Hcs]. rewrite Hcs. eexists. reflexivity.
Qed.

Lemma draw_poster_outcome_unit `{!PyRandomOk PyS} (p : Params) (g : PyS * NpS) :
  in_unit (alpha_min p) -> in_unit (alpha_max p) ->
  outcome (fst (draw_poster p g)) = draw_outcome p.
Proof.
  intros Ha Hb. unfold draw_poster, draw_outcome.
  destruct ((width p <? 0) || (height p <? 0))%Z; [reflexivity|].
  destruct (mpl_to_rgb (background p)); [|reflexivity].
  rewrite !bind_eq. unfold ret. cbn [fst].
  match goal with |- context [layers p ?pal ?is ?g'] =>
    destruct (layers_ok p pal is g' Ha Hb) as [cs Hcs]; rewrite Hcs
  end.
  destruct (contrast_title (background p) (title_color p)) as [tc|e]; [|reflexivity].
  destruct (mpl_to_rgb tc); reflexivity.
Qed.

(** Whatever the alpha bounds, [draw_poster] has the outcome [draw_outcome]
    or raises [ValueError] from a refused fill. *)
Lemma draw_poster_outcome (p : Params) (g : PyS * NpS) :
  outcome (fst (draw_poster p g)) = draw_outcome p \/
  outcome (fst (draw_poster p g)) = Some ValueError.
Proof.
  unfold draw_poster, draw_outcome.
  destruct ((width p <? 0) || (height p <? 0))%Z; [left; reflexivity|].
  destruct (mpl_to_rgb (background p)); [|left; reflexivity].
  rewrite !bind_eq. unfold ret. cbn [fst].
  match goal with |- context [fst (layers p ?pal ?is ?g')] =>
    destruct (fst (layers p pal is g')) as [cs|e] eqn:E
  end.
  - left. destruct (contrast_title (background p) (title_color p)) as [tc|e]; [|reflexivity].
    destruct (mpl_to_rgb tc); reflexivity.
  - right. rewrite (layers_raise _ _ _ _ _ E). reflexivity.
Qed.

(** With both alpha bounds above 1 (or both below 0), the first layer's
    fill is refused. *)
Lemma draw_poster_alpha_raises `{!PyRandomOk PyS} (p : Params) (g : PyS * NpS) :
  (1 < alpha_min p /\ 1 < alpha_max p) \/ (alpha_min p < 0 /\ alpha_max p < 0) ->
  (1 <= n_layers p)%Z ->
  outcome (fst (draw_poster p g)) = Some ValueError.
Proof.
  intros Hab Hn. unfold draw_poster.
  destruct ((width p <? 0) || (height p <? 0))%Z; [reflexivity|].
  destruct (mpl_to_rgb (background p)); [|reflexivity].
  rewrite !bind_eq. unfold ret. cbn [fst].
  replace (Z.to_nat (n_layers p)) with (S (Z.to_nat (n_layers p) - 1)) by lia.
  cbn [seq layers]. rewrite bind_eq. cbv beta.
  match goal with |- context [layer p ?pal 0%nat ?g'] =>
    destruct (layer_alpha_eq p pal 0%nat g') as (xs & ys & x0 & y0 & c0 & g1 & Heq);
    rewrite Heq
  end.
  destruct (uniform_range (alpha_min p) (alpha_max p) g1) as [u [Hu Hau]].
  cbn [forallb fill_ok].
  rewrite (alpha_ok_outside (fst (uniform (alpha_min p) (alpha_max p) g1)))
    by (rewrite Hau; destruct Hab; [left | right]; nra).
  rewrite andb_false_r. reflexivity.
Qed.

Lemma draw_poster_size (p : Params) (g : PyS * NpS) (f : Figure) :
  fst (draw_poster p g) = Ok f -> fig_size f = (IZR (width p) / dpi, IZR (height p) / dpi).
Proof.
  unfold draw_poster.
  destruct ((width p <? 0) || (height p <? 0))%Z; [discriminate|].
  destruct (mpl_to_rgb (background p)); [|discriminate].
  rewrite !bind_eq. unfold ret. cbn [fst].
  match goal with |- context [fst (layers p ?pal ?is ?g')] =>
    destruct (fst (layers p pal is g')) as [cs|e]; [|discriminate]
  end.
  destruct (contrast_title (background p) (title_color p)) as [tc|e]; [|discriminate].
  destruct (mpl_to_rgb tc); [|discriminate].
  intro Hf. injection Hf as <-. reflexivity.
Qed.

Lemma render_figure_draw (e g : PyS * NpS) (p : Params) (f : Figure) :
  fst (render_figure e p g) = Ok f -> exists g', fst (draw_poster p g') = Ok f.
Proof.
  unfold render_figure. destruct (seed p) as [s|]; [|eauto].
  destruct ((0 <=? s) && (s <? 2 ^ 32))%Z; [eauto | discriminate].
Qed.

(** [render_poster] raises what [render_figure] raises, and else raises
    [ValueError] exactly when the figure is too large for Agg. *)
Lemma render_poster_outcome (savefig : Figure -> list Byte.byte) (e g : PyS * NpS)
  (p : Params) :
  outcome (fst (render_poster savefig e p g)) =
  match outcome (fst (render_figure e p g)) with
  | Some x => Some x
  | None => if agg_fits (IZR (width p) / dpi, IZR (height p) / dpi) then None
            else Some ValueError
  end.
Proof.
  unfold render_poster.
  destruct (render_figure e p g) as [r g'] eqn:E. cbn [fst].
  destruct r as [f|x]; [|reflexivity].
  destruct (render_figure_draw e g p f ltac:(rewrite E; reflexivity)) as [g1 Hd].
  rewrite (draw_poster_size p g1 f Hd). cbn [outcome].
  destruct (agg_fits _); reflexivity.
Qed.

(** Agg's limit in pixels: the figure's size in inches times [dpi] is the
    requested width and height. *)
Lemma agg_fits_pixels (w h : Z) :
  agg_fits (IZR w / dpi, IZR h / dpi) = ((w <? 65536) && (h <? 65536))%Z.
Proof.
  unfold agg_fits, dpi.
  replace (IZR w / 150 * 150) with (IZR w) by field.
  replace (IZR h / 150 * 150) with (IZR h) by field.
  destruct (Rlt_dec (IZR w) 65536) as [Hw|Hw]; destruct (Z.ltb_spec w 65536) as [Hw'|Hw'].
  - destruct (Rlt_dec (IZR h) 65536) as [Hh|Hh]; destruct (Z.ltb_spec h 65536) as [Hh'|Hh'];
      try reflexivity.
    + apply lt_IZR in Hh. lia.
    + apply IZR_lt in Hh'. contradiction.
  - apply lt_IZR in Hw. lia.
  - apply IZR_lt in Hw'. contradiction.
  - reflexivity.
Qed.

(** C6 (corrected): [render_poster] checks none of its numeric parameters
    itself and has no [InvalidParameter].  With both alpha bounds in
    [[0, 1]], the bounds do not decide whether it raises or what: each
    layer's alpha is [random.uniform(alpha_min, alpha_max)], which accepts
    the bounds in either order.  Alpha bounds both above 1 (or both below 0)
    make it raise [ValueError] with at least one layer: matplotlib's
    [plt.fill] refuses the first layer's alpha inside the layer loop. *)
Theorem render_alpha_unchecked `{!PyRandomOk PyS} (savefig : Figure -> list Byte.byte)
  (entropy g : PyS * NpS) (p : Params) (lo hi : R) :
  (in_unit (alpha_min p) -> in_unit (alpha_max p) -> in_unit lo -> in_unit hi ->
   outcome (fst (render_poster savefig entropy (set_alpha p lo hi) g)) =
   outcome (fst (render_poster savefig entropy p g))) /\
  ((1 < lo /\ 1 < hi) \/ (lo < 0 /\ hi < 0) -> (1 <= n_layers p)%Z ->
   outcome (fst (render_poster savefig entropy (set_alpha p lo hi) g)) = Some ValueError).
Proof.
  split.
  - intros Ha Hb Hlo Hhi. rewrite !render_poster_outcome. cbn [width height set_alpha].
    replace (outcome (fst (render_figure entropy (set_alpha p lo hi) g)))
      with (outcome (fst (render_figure entropy p g))); [reflexivity|].
    unfold render_figure. cbn [seed set_alpha].
    destruct (seed p) as [s|].
    + destruct ((0 <=? s) && (s <? 2 ^ 32))%Z; [|reflexivity].
      rewrite !draw_poster_outcome_unit by assumption. reflexivity.
    + rewrite !draw_poster_outcome_unit by assumption. reflexivity.
  - intros Hab Hn. rewrite render_poster_outcome.
    replace (outcome (fst (render_figure entropy (set_alpha p lo hi) g)))
      with (Some ValueError); [reflexivity|].
    unfold render_figure. cbn [seed set_alpha].
    destruct (seed p) as [s|].
    + destruct ((0 <=? s) && (s <? 2 ^ 32))%Z; [|reflexivity].
      symmetry. apply draw_poster_alpha_raises; assumption.
    + symmetry. apply draw_poster_alpha_raises; assumption.
Qed.

(** C7 (corrected): a blob point's radius [r * (1 + wobble * (u - 0.5))],
    [u] a draw of [np.random.rand] in [[0, 1)], is positive when [r > 0] and
    [0 <= wobble < 2]; no floor is applied. *)
Theorem blob_radii_positive `{!NpRandomOk NpS} (r w : R) (points : nat)
  (g : PyS * NpS) (Hr : 0 < r) (Hw : 0 <= w < 2) :
  Forall (fun rad => 0 < rad) (map (blob_radius r w) (fst (np_rand points g))).
Proof.
  apply Forall_map. unfold np_rand. apply repeatM_Forall. intros [ps ns].
  unfold np_sample. pose proof (np_random_range ns) as Hu.
  destruct (np_random_sample ns) as [u ns']. cbn [fst] in *.
  unfold blob_radius. apply Rmult_lt_0_compat; [exact Hr | nra].
Qed.

End Validation.

(** C9: the contrast fix reads a title color through [hex_to_rgb], falling
    back to black when that fails, but keeps the original string.  With a
    white background and the short hex form ["#FF0"] (yellow for
    matplotlib), the fallback black passes the contrast test, so ["#FF0"] is
    kept, and its luminance differs from the background's by [0.114 < 0.3]. *)
Theorem contrast_title_short_hex_kept :
  contrast_title "#FFFFFF" "#FF0" = Ok "#FF0"%string /\
  exists bg tc,
    hex_to_rgb "#FFFFFF" = Some bg /\ mpl_hex_rgb "#FF0" = Some tc /\
    Rabs (luminance bg - luminance tc) < 3/10.
Proof.
  assert (Hw : hex_to_rgb "#FFFFFF" = Some (1, 1, 1)).
  { replace (1 : R) with (IZR 255 / 255) by field. reflexivity. }
  assert (Hy : mpl_hex_rgb "#FF0" = Some (1, 1, 0)).
  { replace (1 : R) with (IZR (17 * 15) / 255) by (cbn; field).
    replace (0 : R) with (IZR (17 * 0) / 255) by (cbn; field). reflexivity. }
  split.
  - unfold contrast_title. rewrite Hw.
    replace (hex_to_rgb "#FF0") with (@None Color) by reflexivity.
    unfold luminance.
    destruct (Rlt_dec _ (1/2)) as [Hlt|]; [|reflexivity].
    exfalso. rewrite Rabs_right in Hlt; lra.
  - exists (1, 1, 1), (1, 1, 0).
    split; [exact Hw|]. split; [exact Hy|].
    unfold luminance. rewrite Rabs_right; lra.
Qed.

(** C2, counterexample: with the base gray and the offset draw both 0.95, the
    one-entry [monochrome] palette has channels [1.045 > 1]. *)
Lemma random_palette_monochrome_above_one :
  ~ Forall color_in_unit
      (fst (@random_palette unit unit (const_py (95/100)) "monochrome" 1 (tt, tt))).
Proof.
  cbn [random_palette String.eqb Ascii.eqb Bool.eqb andb repeatM].
  unfold bind, mono_color, random_random, bind, ret; cbn [fst snd py_random const_py].
  intro Hall. inversion Hall as [|c l Hc _]. cbn [color_in_unit] in Hc.
  unfold in_unit in Hc. lra.
Qed.

(** ** Concrete inputs *)

Lemma const_py_ok (c : R) (Hc : 0 <= c < 1) : @PyRandomOk unit (const_py c).
Proof. split; intros; cbn; [lra | assumption]. Qed.

Lemma const_np_ok (c : R) (Hc : 0 <= c < 1) : @NpRandomOk unit (const_np c).
Proof. split; intros; cbn; lra. Qed.


(** Two circle layers, brightness strength 0.3. *)
Definition two_circles : Params := {|
  style := "pastel"; shape_type := "circle"; n_layers := 2; wobble := 4/10;
  background := "#FFFFFF"; title_color := "#000000"; seed := Some 42%Z;
  shadow_offset := 2/100; brightness_strength := 3/10;
  alpha_min := 6/10; alpha_max := 9/10; light_angle := 45;
  rotation_range := 3/10; width := 1200; height := 1700
|}.

Definition gray_palette : list Color := [(1/2, 1/2, 1/2)].

(** The color of the lit fill of one layer. *)
Definition lit_color (cmds : list Cmd) : option Color :=
  match cmds with
  | [_; Fill _ _ c _] => Some c
  | _ => None
  end.

Lemma clip01_inside (x : R) : 0 <= x <= 1 -> clip01 x = x.
Proof.
  intro Hx. unfold clip01, Rmin, Rmax.
  destruct (Rle_dec x 0); destruct (Rle_dec _ 1); lra.
Qed.

(** C3, counterexample: in a poster of two layers the second layer's lit
    color is the gray [0.5] scaled by [0.75 + 0.3 * 1/2 = 0.9], not by
    [0.75 + 0.3 * 1/max(1, 2-1) = 1.05]: [0.45], not [0.525]. *)
Lemma layer_brightness_not_n_minus_1 :
  ~ exists xs ys x y alpha,
      fst (@layer unit unit (const_py 0) (const_np 0) two_circles gray_palette 1 (tt, tt)) =
      [Fill xs ys (0, 0, 0) (35/100);
       Fill x y (clip_color (scale_color (1/2, 1/2, 1/2)
                  (3/4 + 3/10 * (INR 1 / IZR (Z.max 1 (2 - 1)))))) alpha].
Proof.
  intros (xs & ys & x & y & alpha & Hclaim).
  destruct (@layer_eq unit unit (const_py 0) (const_np 0) two_circles gray_palette 1 (tt, tt))
    as (cx & cy & rr & angle & g1 & j & alpha' & Heq & Hj).
  assert (j = 0)%nat as ->.
  { specialize (Hj (const_py_ok 0 ltac:(lra)) ltac:(discriminate)). cbn in Hj. lia. }
  rewrite Heq in Hclaim. apply (f_equal lit_color) in Hclaim.
  cbn [lit_color] in Hclaim. injection Hclaim as Hr _ _.
  unfold brightness_factor, two_circles, gray_palette in Hr.
  cbn [nth brightness_strength n_layers] in Hr.
  try change (Z.max 1 2) with 2%Z in Hr; try change (Z.max 1 1) with 1%Z in Hr;
  try change (Z.max 1 (2 - 1)) with 1%Z in Hr.
  replace (INR 1) with 1 in Hr by reflexivity.
  rewrite !clip01_inside in Hr.
  - field_simplify in Hr. lra.
  - split; field_simplify; lra.
  - split; field_simplify; lra.
Qed.

(** C5, counterexample: with the light at 90 degrees and a shadow offset of
    0.02, the shadow is displaced by [(0.02 cos 90°, -0.02)], not by
    [(0.02 cos 90°, 0.02 sin 90°) = (0.02 cos 90°, 0.02)]. *)
Lemma shadow_delta_not_along_light :
  shadow_delta (2/100) 90 <> (2/100 * cos (radians 90), 2/100 * sin (radians 90)).
Proof.
  unfold shadow_delta, radians.
  replace (90 * (PI / 180)) with (PI / 2) by field.
  rewrite sin_PI2. intro Hd. injection Hd as Hy. lra.
Qed.

(** Two polygon layers. *)
Definition two_polygons : Params := {|
  style := "pastel"; shape_type := "polygon"; n_layers := 2; wobble := 4/10;
  background := "#FFFFFF"; title_color := "#000000"; seed := Some 42%Z;
  shadow_offset := 2/100; brightness_strength := 3/10;
  alpha_min := 6/10; alpha_max := 9/10; light_angle := 45;
  rotation_range := 3/10; width := 1200; height := 1700
|}.

(** Python draws for one polygon layer: every float is 0.5 (the four
    [uniform] calls, then the alpha); the fifth draw, [_randbelow(6)] of the
    shadow's [randint(3, 8)], gives 0 (3 sides); the sixth, [_randbelow(6)]
    of the lit shape's [randint(3, 8)], gives 1 (4 sides); the seventh,
    [_randbelow(1)] of [random.choice] on a one-color palette, gives 0.  Each
    draw lies in the range CPython's generator can return. *)
Definition sides_script : Script := {|
  script_floats := fun _ => 1/2;
  script_ints := fun n => if Nat.eqb n 5 then 1%nat else 0%nat;
  script_pos := 0
|}.

Definition fill_lengths (cmds : list Cmd) : list nat :=
  map (fun c => match c with Fill xs _ _ _ => List.length xs | Text _ _ _ _ => 0%nat end) cmds.

Lemma polygon_layer_lengths :
  fill_lengths (fst (@layer Script Script script_py script_np two_polygons gray_palette 0
                       (sides_script, sides_script))) = [4%nat; 5%nat].
Proof. reflexivity. Qed.

(** C4 (code bug): the shadow and the lit shape of a layer come from two
    calls of [shape], each drawing its own [randint(3, 8)].  When the two
    draws of a polygon layer differ (3 sides for the shadow, 4 for the lit
    shape), the shadow outline has 4 points and the lit outline 5: the
    shadow is no translate of the lit outline, against the comment of
    app2.py line 115 ("so polygon shadow matches polygon"). *)
Lemma layer_shadow_not_translated :
  ~ exists xs_s ys_s x y c a d,
      fst (@layer Script Script script_py script_np two_polygons gray_palette 0
             (sides_script, sides_script)) =
        [Fill xs_s ys_s (0, 0, 0) (35/100); Fill x y c a]
      /\ xs_s = map (fun v => v + d) x.
Proof.
  intros (xs_s & ys_s & x & y & c & a & d & Heq & Hx).
  pose proof polygon_layer_lengths as Hlen. rewrite Heq in Hlen.
  unfold fill_lengths in Hlen. cbn [map] in Hlen.
  injection Hlen as H4 H5. subst xs_s. rewrite length_map in H4. lia.
Qed.

(** Witnesses. *)

Lemma render_poster_deterministic_witness :
  seed two_circles = Some 42%Z /\
  fst (@render_poster Script Script script_py script_np some_names (fun _ => [])
         (sides_script, sides_script) two_circles (sides_script, sides_script)) =
  fst (@render_poster Script Script script_py script_np some_names (fun _ => [])
         (advance sides_script, sides_script) two_circles
         (sides_script, advance sides_script)).
Proof.
  split; [reflexivity|].
  apply (render_poster_deterministic (fun _ => []) _ _ _ _ two_circles 42%Z).
  reflexivity.
Defined.

Lemma random_palette_channels_witness :
  @PyRandomOk unit (const_py 0) /\
  ("neon"%string <> "monochrome"%string ->
     Forall color_in_unit (fst (@random_palette unit unit (const_py 0) "neon" 3 (tt, tt)))).
Proof.
  split; [apply const_py_ok; lra|].
  apply (proj1 (@random_palette_channels unit unit (const_py 0)
                  (const_py_ok 0 ltac:(lra)) "neon" 3 (tt, tt))).
Defined.

Lemma layer_lit_color_witness :
  gray_palette <> [] /\
  exists xs ys x y base alpha,
    In base gray_palette /\
    fst (@layer unit unit (const_py 0) (const_np 0) two_circles gray_palette 1 (tt, tt)) =
      [Fill xs ys (0, 0, 0) (35/100);
       Fill x y (clip_color (scale_color base
                  (3/4 + 3/10 * (INR 1 / IZR (Z.max 1 2))))) alpha].
Proof.
  split; [discriminate|].
  apply (@layer_lit_color unit unit (const_py 0) (const_np 0) (const_py_ok 0 ltac:(lra))
           two_circles gray_palette 1 (tt, tt)).
  discriminate.
Defined.

Lemma contrast_title_white_black :
  contrast_title "#FFFFFF" "#000000" = Ok "#000000"%string.
Proof.
  assert (Hw : hex_to_rgb "#FFFFFF" = Some (1, 1, 1)).
  { replace (1 : R) with (IZR 255 / 255) by field. reflexivity. }
  assert (Hb : hex_to_rgb "#000000" = Some (0, 0, 0)).
  { replace (0 : R) with (IZR 0 / 255) by field. reflexivity. }
  unfold contrast_title. rewrite Hw, Hb. unfold luminance.
  destruct (Rlt_dec _ (1/2)) as [Hlt|]; [|reflexivity].
  exfalso. rewrite Rabs_right in Hlt; lra.
Qed.

(** A figure of non-negative size on a white background with a black title
    raises nothing, whatever color names matplotlib knows. *)
Lemma draw_outcome_white_black `{MplNames} (p : Params) :
  background p = "#FFFFFF"%string -> title_color p = "#000000"%string ->
  ((width p <? 0) || (height p <? 0))%Z = false -> draw_outcome p = None.
Proof.
  intros Hb Ht Hwh. unfold draw_outcome. rewrite Hwh, Hb, Ht, contrast_title_white_black.
  unfold mpl_to_rgb.
  replace (mpl_hex_rgb "#FFFFFF") with (Some (IZR 255 / 255, IZR 255 / 255, IZR 255 / 255))
    by reflexivity.
  replace (mpl_hex_rgb "#000000") with (Some (IZR 0 / 255, IZR 0 / 255, IZR 0 / 255))
    by reflexivity.
  reflexivity.
Qed.

(** Two circle layers with [alpha_min = 0.9 > alpha_max = 0.1]. *)
Definition reversed_alpha : Params := {|
  style := "pastel"; shape_type := "circle"; n_layers := 2; wobble := 4/10;
  background := "#FFFFFF"; title_color := "#000000"; seed := Some 42%Z;
  shadow_offset := 2/100; brightness_strength := 3/10;
  alpha_min := 9/10; alpha_max := 1/10; light_angle := 45;
  rotation_range := 3/10; width := 1200; height := 1700
|}.

(** C6, counterexample: with [alpha_min = 0.9] and [alpha_max = 0.1],
    [render_poster] draws its layers and returns the PNG bytes: nothing
    fails. *)
Lemma render_reversed_alpha_draws :
  exists bytes,
    fst (@render_poster unit unit (const_py 0) (const_np 0) some_names (fun _ => [])
           (tt, tt) reversed_alpha (tt, tt)) = Ok bytes.
Proof.
  destruct (fst (render_poster _ _ reversed_alpha _)) as [bytes|e] eqn:E; [eauto|].
  exfalso.
  pose proof (@render_poster_outcome unit unit (const_py 0) (const_np 0) some_names
                (fun _ => []) (tt, tt) (tt, tt) reversed_alpha) as Ho.
  rewrite E in Ho. unfold render_figure in Ho. cbn [seed reversed_alpha] in Ho.
  replace ((0 <=? 42) && (42 <? 2 ^ 32))%Z with true in Ho by reflexivity.
  rewrite (@draw_poster_outcome_unit unit unit (const_py 0) (const_np 0) some_names
             (const_py_ok 0 ltac:(lra))) in Ho
    by (cbn [alpha_min alpha_max reversed_alpha]; unfold in_unit; lra).
  rewrite draw_outcome_white_black in Ho by reflexivity.
  rewrite agg_fits_pixels in Ho. cbn [width height reversed_alpha] in Ho. discriminate Ho.
Qed.

Lemma render_alpha_unchecked_witness :
  @PyRandomOk unit (const_py 0) /\
  outcome (fst (@render_poster unit unit (const_py 0) (const_np 0) some_names (fun _ => [])
                  (tt, tt) (set_alpha two_circles (1/10) (9/10)) (tt, tt))) =
  outcome (fst (@render_poster unit unit (const_py 0) (const_np 0) some_names (fun _ => [])
                  (tt, tt) two_circles (tt, tt))) /\
  outcome (fst (@render_poster unit unit (const_py 0) (const_np 0) some_names (fun _ => [])
                  (tt, tt) (set_alpha two_circles 2 3) (tt, tt))) = Some ValueError.
Proof.
  split; [apply const_py_ok; lra|]. split.
  - apply (proj1 (@render_alpha_unchecked unit unit (const_py 0) (const_np 0) some_names
                    (const_py_ok 0 ltac:(lra)) (fun _ => []) (tt, tt) (tt, tt) two_circles
                    (1/10) (9/10)));
      unfold in_unit; cbn [alpha_min alpha_max two_circles]; lra.
  - apply (proj2 (@render_alpha_unchecked unit unit (const_py 0) (const_np 0) some_names
                    (const_py_ok 0 ltac:(lra)) (fun _ => []) (tt, tt) (tt, tt) two_circles
                    2 3)); [left; lra | cbn; lia].
Defined.

(** C7, counterexample: with wobble 4 (at least 0) and the draw [u = 0],
    the blob radius is [0.2 * (1 + 4 * (0 - 0.5)) = -0.2]: no floor keeps it
    positive. *)
Lemma blob_radius_wobble_4_negative :
  ~ Forall (fun rad => 0 < rad)
      (map (blob_radius (2/10) 4) (fst (@np_rand unit unit (const_np 0) 1 (tt, tt)))).
Proof.
  replace (fst (@np_rand unit unit (const_np 0) 1 (tt, tt))) with [0] by reflexivity.
  cbn [map]. intro Hall. inversion Hall as [|rad l Hrad _].
  unfold blob_radius in Hrad. lra.
Qed.

Lemma blob_radii_positive_witness :
  0 < 2/10 /\ 0 <= 4/10 < 2 /\
  Forall (fun rad => 0 < rad)
    (map (blob_radius (2/10) (4/10)) (fst (@np_rand unit unit (const_np 0) 1000 (tt, tt)))).
Proof.
  split; [lra|]. split; [lra|].
  apply (@blob_radii_positive unit unit (const_np 0) (const_np_ok 0 ltac:(lra))
           (2/10) (4/10) 1000 (tt, tt)); lra.
Defined.

(** ** Blob end points *)

Lemma combine_snoc {A B} (l1 : list A) (l2 : list B) (a : A) (b : B) :
  List.length l1 = List.length l2 ->
  combine (l1 ++ [a]) (l2 ++ [b]) = combine l1 l2 ++ [(a, b)].
Proof.
  revert l2. induction l1 as [|x l1 IH]; intros [|y l2] Hlen; cbn in *;
    try discriminate; [reflexivity|].
  rewrite IH by lia. reflexivity.
Qed.

(** [np.linspace(0, stop, n)] for [n >= 2]: starts at 0 and ends at [stop]. *)
Lemma linspace_snoc (stop : R) (m : nat) :
  exists l, linspace 0 stop (S (S m)) true = l ++ [stop] /\
            List.length l = S m /\ nth 0 l 0 = 0.
Proof.
  unfold linspace. cbn [andb Nat.ltb Nat.leb].
  set (h := fun k => 0 + INR k * ((stop - 0) / INR (S (S m) - 1))).
  rewrite seq_S, map_app. cbn [map]. rewrite removelast_last.
  exists (map h (seq 0 (S m))). split; [reflexivity|]. split.
  - rewrite length_map, length_seq. reflexivity.
  - cbn [seq map nth]. unfold h. cbn [INR]. ring.
Qed.

(** [np.random.rand(n)] on scripted draws reads [n] consecutive draws. *)
Lemma np_rand_script (n : nat) (ps s : Script) :
  fst (@np_rand Script Script script_np n (ps, s)) =
  map (script_floats s) (seq (script_pos s) n).
Proof.
  revert s. induction n as [|n IH]; intro s; [reflexivity|].
  unfold np_rand in *. cbn [repeatM]. rewrite !bind_eq. unfold ret. cbn [fst].
  change (fst (np_sample (ps, s))) with (script_floats s (script_pos s)).
  change (snd (np_sample (ps, s))) with (ps, advance s).
  rewrite IH. reflexivity.
Qed.

(** NumPy draws: 0 first, then 0.5. *)
Definition blob_script : Script := {|
  script_floats := fun k => if Nat.eqb k 0 then 0 else 1/2;
  script_ints := fun _ => 0%nat;
  script_pos := 0
|}.

(** C10: a blob outline is not closed: its first point (angle 0) and its
    last point (angle [2 pi]) use independent radii, so for every non-zero
    radius and wobble and every resolution of at least two points, some
    draws give a first point different from the last one. *)
Theorem blob_outline_not_closed (cx cy r w : R) (points : nat)
  (Hr : r <> 0) (Hw : w <> 0) (Hp : (2 <= points)%nat) :
  exists g : Script * Script,
    let xy := fst (@blob Script Script script_np (cx, cy) r points w g) in
    nth 0 (fst xy) 0 <> last (fst xy) 0.
Proof.
  destruct points as [|[|m]]; [lia | lia |].
  exists (blob_script, blob_script).
  unfold blob. rewrite bind_eq. unfold ret. cbn [fst snd].
  destruct (linspace_snoc (2 * PI) m) as (l & Hl & Hlen & H0). rewrite Hl.
  rewrite np_rand_script. cbn [script_floats script_pos blob_script].
  rewrite seq_S, !map_app. cbn [map].
  unfold polar_x. rewrite combine_snoc
    by (rewrite !length_map, length_seq; symmetry; exact Hlen).
  rewrite map_app. cbn [map]. rewrite last_last.
  destruct l as [|l0 l]; [discriminate|]. cbn [nth] in H0. subst l0.
  cbn [seq map combine nth Nat.eqb Nat.add].
  rewrite cos_0, cos_2PI. unfold blob_radius. cbn [app nth].
  intro Heq. assert (Hrw : r * w = 0) by nra.
  apply Rmult_integral in Hrw. tauto.
Qed.

Lemma blob_outline_not_closed_witness :
  (2 / 10 : R) <> 0 /\ (15 / 100 : R) <> 0 /\ (2 <= 1000)%nat /\
  exists g : Script * Script,
    let xy := fst (@blob Script Script script_np (1/2, 1/2) (2/10) 1000 (15/100) g) in
    nth 0 (fst xy) 0 <> last (fst xy) 0.
Proof.
  split; [lra|]. split; [lra|]. split; [lia|].
  apply (blob_outline_not_closed (1/2) (1/2) (2/10) (15/100) 1000); [lra | lra | lia].
Defined.

(** ** Further properties of app2.py *)

Section Outlines.

Context {PyS NpS : Type} `{PyRandom PyS} `{NpRandom NpS}.

Lemma repeatM_length {A} (m : @M PyS NpS A) (k : nat) (g : PyS * NpS) :
  List.length (fst (repeatM k m g)) = k.
Proof.
  revert g. induction k as [|k IH]; intro g; [reflexivity|].
  cbn [repeatM]. rewrite !bind_eq. unfold ret. cbn [fst List.length]. rewrite IH. reflexivity.
Qed.

(** X1: [random_palette(style, k)] returns [k] colors, whatever the style. *)
Theorem random_palette_length (style : string) (k : nat) (g : PyS * NpS) :
  List.length (fst (random_palette style k g)) = k.
Proof.
  unfold random_palette.
  repeat match goal with
  | |- context [if String.eqb style ?x then _ else _] => destruct (String.eqb style x)
  end; try apply repeatM_length.
  rewrite bind_eq. apply repeatM_length.
Qed.

(** The squared distance of a point to [(cx, cy)]. *)
Definition sqdist (cx cy : R) (pt : R * R) : R := (fst pt - cx) ^ 2 + (snd pt - cy) ^ 2.

Lemma combine_map_fst_snd {A B} (l : list (A * B)) : combine (map fst l) (map snd l) = l.
Proof. induction l as [|[a b] l IH]; cbn; [reflexivity | now rewrite IH]. Qed.

Lemma combine_polar (cx cy : R) (radii angles : list R) :
  combine (polar_x cx radii angles) (polar_y cy radii angles) =
  map (fun '(rad, a) => (cx + rad * cos a, cy + rad * sin a)) (combine radii angles).
Proof.
  unfold polar_x, polar_y.
  induction (combine radii angles) as [|[rad a] l IH]; cbn; [reflexivity | now rewrite IH].
Qed.

Lemma sqdist_polar (cx cy rad a : R) :
  sqdist cx cy (cx + rad * cos a, cy + rad * sin a) = rad ^ 2.
Proof.
  unfold sqdist. cbn [fst snd].
  transitivity (rad ^ 2 * (Rsqr (sin a) + Rsqr (cos a))); [unfold Rsqr; ring | rewrite sin2_cos2; ring].
Qed.

Lemma polar_x_length (c : R) (radii angles : list R) :
  List.length (polar_x c radii angles) = Nat.min (List.length radii) (List.length angles).
Proof. unfold polar_x. rewrite length_map, length_combine. reflexivity. Qed.

Lemma polar_y_length (c : R) (radii angles : list R) :
  List.length (polar_y c radii angles) = Nat.min (List.length radii) (List.length angles).
Proof. unfold polar_y. rewrite length_map, length_combine. reflexivity. Qed.

Lemma linspace_length (start stop : R) (num : nat) (endpoint : bool) :
  List.length (linspace start stop num endpoint) = num.
Proof.
  unfold linspace. destruct (endpoint && (1 <? num)%nat) eqn:E.
  - apply andb_prop in E as [_ E]. apply Nat.ltb_lt in E.
    destruct num as [|n]; [lia|].
    rewrite seq_S, map_app. cbn [map]. rewrite removelast_last, length_app, length_map, length_seq.
    cbn. lia.
  - rewrite length_map, length_seq. reflexivity.
Qed.

(** The outline of constant radius [r] around [(cx, cy)]. *)
Lemma polar_const_on_circle (cx cy r : R) (angles : list R) :
  Forall (fun pt => sqdist cx cy pt = r ^ 2)
    (combine (polar_x cx (map (fun _ => r) angles) angles)
             (polar_y cy (map (fun _ => r) angles) angles)).
Proof.
  rewrite combine_polar. apply Forall_forall. intros pt Hin.
  apply in_map_iff in Hin as ([rad a] & <- & Hin).
  pose proof (in_combine_l _ _ _ _ Hin) as Hrad.
  apply in_map_iff in Hrad as (a' & <- & _). apply sqdist_polar.
Qed.

(** X2: [rotate_coords] rotates about [(cx, cy)]: each rotated point is
    as far from the pivot as the point it comes from. *)
Theorem rotate_coords_distance (x y : list R) (cx cy angle : R) :
  let '(x', y') := rotate_coords x y cx cy angle in
  map (sqdist cx cy) (combine x' y') = map (sqdist cx cy) (combine x y).
Proof.
  unfold rotate_coords. cbv beta iota zeta.
  rewrite combine_map_fst_snd, map_map. apply map_ext.
  intros [a b]. unfold rotate_point, sqdist. cbn [fst snd].
  transitivity (((a - cx) ^ 2 + (b - cy) ^ 2) * (Rsqr (sin angle) + Rsqr (cos angle)));
    [unfold Rsqr; ring | rewrite sin2_cos2; ring].
Qed.

(** X3: a circle outline has [points] points, all at distance [r] from
    the center. *)
Theorem circle_outline_on_circle (cx cy r w : R) (points : nat) (g : PyS * NpS) :
  let '(x, y) := fst (shape (cx, cy) r points w "circle" g) in
  List.length x = points /\ List.length y = points /\
  Forall (fun pt => sqdist cx cy pt = r ^ 2) (combine x y).
Proof.
  unfold shape. cbn [String.eqb Ascii.eqb Bool.eqb andb]. unfold ret. cbn [fst snd].
  rewrite polar_x_length, polar_y_length, length_map, linspace_length, Nat.min_id.
  split; [reflexivity|]. split; [reflexivity|]. apply polar_const_on_circle.
Qed.

Lemma randint_range `{!PyRandomOk PyS} (a b : Z) (g : PyS * NpS) :
  (a <= b)%Z -> (a <= fst (randint a b g) <= b)%Z.
Proof.
  intro Hab. unfold randint. rewrite bind_eq. unfold ret. cbn [fst].
  destruct g as [ps ns]. unfold randbelow.
  assert (Hpos : (0 < Z.to_nat (b - a + 1))%nat) by lia.
  pose proof (py_randbelow_range _ ps Hpos) as Hi.
  destruct (py_randbelow (Z.to_nat (b - a + 1)) ps) as [i ps']. cbn [fst] in *. lia.
Qed.

(** X4: a polygon outline lists the [n] vertices, [n] drawn in [[3, 8]], and
    the first vertex again: 4 to 9 points, all at distance [r] from the
    center. *)
Theorem polygon_outline_points `{!PyRandomOk PyS} (cx cy r w : R) (points : nat)
  (g : PyS * NpS) :
  let '(x, y) := fst (shape (cx, cy) r points w "polygon" g) in
  (4 <= List.length x <= 9)%nat /\ List.length y = List.length x /\
  Forall (fun pt => sqdist cx cy pt = r ^ 2) (combine x y).
Proof.
  unfold shape. cbn [String.eqb Ascii.eqb Bool.eqb andb]. rewrite bind_eq. unfold ret. cbn [fst].
  pose proof (randint_range 3 8 g ltac:(lia)) as Hn.
  set (n := fst (randint 3 8 g)) in *. clearbody n.
  set (L := linspace 0 (2 * PI) (Z.to_nat n) false).
  assert (HL : List.length L = Z.to_nat n) by apply linspace_length.
  cbv beta iota zeta. unfold close_array.
  rewrite !length_app, polar_x_length, polar_y_length, length_map, HL, Nat.min_id.
  split; [cbn [List.length]; lia|]. split; [reflexivity|].
  rewrite combine_snoc by (rewrite polar_x_length, polar_y_length; reflexivity).
  apply Forall_app. split; [apply polar_const_on_circle|].
  destruct L as [|a0 L']; [cbn in HL; lia|].
  cbn [polar_x polar_y map combine hd]. constructor; [apply sqdist_polar | constructor].
Qed.

Lemma np_sample_range `{!NpRandomOk NpS} (g : PyS * NpS) : 0 <= fst (np_sample g) < 1.
Proof.
  destruct g as [ps ns]. unfold np_sample. pose proof (np_random_range ns) as Hu.
  destruct (np_random_sample ns). exact Hu.
Qed.

(** X5: every point of a blob outline lies between the circles of radii
    [r * (1 - wobble/2)] and [r * (1 + wobble/2)] around the center, when
    [r > 0] and [0 <= wobble < 2]; the outline has [points] points. *)
Theorem blob_outline_annulus `{!NpRandomOk NpS} (cx cy r w : R) (points : nat)
  (g : PyS * NpS) (Hr : 0 < r) (Hw : 0 <= w < 2) :
  let '(x, y) := fst (blob (cx, cy) r points w g) in
  List.length x = points /\ List.length y = points /\
  Forall (fun pt => (r * (1 - w / 2)) ^ 2 <= sqdist cx cy pt <= (r * (1 + w / 2)) ^ 2)
         (combine x y).
Proof.
  unfold blob. rewrite bind_eq. unfold ret. cbn [fst snd].
  pose proof (repeatM_length np_sample points g) as Hlen.
  pose proof (repeatM_Forall (fun u => 0 <= u < 1) np_sample np_sample_range points g) as Hus.
  unfold np_rand. set (us := fst (repeatM points np_sample g)) in *. clearbody us.
  rewrite polar_x_length, polar_y_length, length_map, linspace_length, Hlen, Nat.min_id.
  split; [reflexivity|]. split; [reflexivity|].
  rewrite combine_polar. apply Forall_forall. intros pt Hin.
  apply in_map_iff in Hin as ([rad a] & <- & Hin).
  pose proof (in_combine_l _ _ _ _ Hin) as Hrad.
  apply in_map_iff in Hrad as (u & <- & Hu).
  rewrite Forall_forall in Hus. specialize (Hus u Hu).
  rewrite sqdist_polar. unfold blob_radius.
  assert (H1 : 0 <= r * (1 - w / 2)) by (apply Rmult_le_pos; lra).
  assert (H2 : r * (1 - w / 2) <= r * (1 + w * (u - 1 / 2))) by (apply Rmult_le_compat_l; nra).
  assert (H3 : r * (1 + w * (u - 1 / 2)) <= r * (1 + w / 2)) by (apply Rmult_le_compat_l; nra).
  split; apply pow_incr; lra.
Qed.

End Outlines.

Section Render.

Context {PyS NpS : Type} `{PyRandom PyS} `{NpRandom NpS} `{MplNames}.

(** X6: each layer's lit alpha lies between [alpha_min] and [alpha_max],
    taken in either order. *)
Theorem layer_alpha_between `{!PyRandomOk PyS} (p : Params) (palette : list Color)
  (i : nat) (g : PyS * NpS) :
  exists xs ys x y c alpha,
    fst (layer p palette i g) = [Fill xs ys (0, 0, 0) (35/100); Fill x y c alpha] /\
    Rmin (alpha_min p) (alpha_max p) <= alpha <= Rmax (alpha_min p) (alpha_max p).
Proof.
  destruct (layer_alpha_eq p palette i g) as (xs & ys & x & y & c & g' & Heq).
  exists xs, ys, x, y, c, (fst (uniform (alpha_min p) (alpha_max p) g')).
  split; [exact Heq|].
  destruct (uniform_range (alpha_min p) (alpha_max p) g') as [u [Hu ->]].
  unfold Rmin, Rmax. destruct (Rle_dec (alpha_min p) (alpha_max p)); split; nra.
Qed.

Lemma clip01_unit (x : R) : in_unit (clip01 x).
Proof. unfold in_unit, clip01, Rmin, Rmax. destruct (Rle_dec x 0); destruct (Rle_dec _ 1); lra. Qed.

Lemma clip_color_unit (c : Color) : color_in_unit (clip_color c).
Proof. destruct c as [[r g] b]. cbn. repeat split; apply clip01_unit. Qed.

(** The two fills of one layer: a black shadow at alpha 0.35, then the lit
    shape in a color of [[0, 1]^3]. *)
Definition shadow_lit_pair (cmds : list Cmd) : Prop :=
  exists xs ys x y c a,
    cmds = [Fill xs ys (0, 0, 0) (35/100); Fill x y c a] /\ color_in_unit c.

Lemma layer_pair (p : Params) (palette : list Color) (i : nat) (g : PyS * NpS) :
  shadow_lit_pair (fst (layer p palette i g)).
Proof.
  destruct (layer_eq p palette i g) as (cx & cy & rr & angle & g1 & j & alpha & Heq & _).
  rewrite Heq. do 6 eexists. split; [reflexivity | apply clip_color_unit].
Qed.

Lemma layers_pairs (p : Params) (palette : list Color) (is : list nat) (g : PyS * NpS)
  (cs : list Cmd) :
  fst (layers p palette is g) = Ok cs ->
  exists L, cs = List.concat L /\ List.length L = List.length is /\ Forall shadow_lit_pair L.
Proof.
  revert g cs. induction is as [|i is IH]; intros g cs; cbn [layers].
  - unfold ret. cbn [fst]. intro Hc. injection Hc as <-.
    exists []. split; [reflexivity|]. split; [reflexivity | constructor].
  - rewrite bind_eq. cbv beta.
    destruct (forallb fill_ok (fst (layer p palette i g))); [|unfold ret; cbn [fst]; discriminate].
    rewrite bind_eq. unfold ret. cbn [fst].
    destruct (fst (layers p palette is (snd (layer p palette i g)))) as [cs'|e] eqn:E;
      [|discriminate].
    intro Hc. injection Hc as <-.
    destruct (IH _ _ E) as (L & HL & Hlen & Hall).
    exists (fst (layer p palette i g) :: L). rewrite HL. split; [reflexivity|].
    split; [cbn; rewrite Hlen; reflexivity|]. constructor; [apply layer_pair | exact Hall].
Qed.

Lemma contrast_title_cases (bg tc c : string) :
  contrast_title bg tc = Ok c ->
  c = tc \/ c = "#FFFFFF"%string \/ c = "#000000"%string.
Proof.
  unfold contrast_title. destruct (hex_to_rgb bg); [|discriminate].
  destruct (Rlt_dec _ _); [destruct (Rlt_dec _ _)|]; intro Hc; injection Hc as <-; tauto.
Qed.

(** X7: a rendered figure has the requested size at 150 dpi and the
    background as face color; its commands are [n_layers] pairs of fills (a
    black shadow at alpha 0.35, then the lit shape in a color of
    [[0, 1]^3]), then the three title texts in one color: the title color,
    or white or black from the contrast fix. *)
Theorem render_figure_layout (e g : PyS * NpS) (p : Params) (f : Figure)
  (Hf : fst (render_figure e p g) = Ok f) :
  exists L tc,
    commands f = List.concat L ++ title_texts p tc /\
    List.length L = Z.to_nat (n_layers p) /\ Forall shadow_lit_pair L /\
    (tc = title_color p \/ tc = "#FFFFFF"%string \/ tc = "#000000"%string) /\
    facecolor f = background p /\
    fig_size f = (IZR (width p) / dpi, IZR (height p) / dpi).
Proof.
  destruct (render_figure_draw e g p f Hf) as [g' Hd]. clear Hf.
  unfold draw_poster in Hd.
  destruct ((width p <? 0) || (height p <? 0))%Z; [discriminate|].
  destruct (mpl_to_rgb (background p)); [|discriminate].
  rewrite !bind_eq in Hd. unfold ret in Hd. cbn [fst] in Hd.
  match type of Hd with context [fst (layers p ?pal ?is ?g1)] =>
    destruct (fst (layers p pal is g1)) as [cs|ex] eqn:El; [|discriminate];
    destruct (layers_pairs p pal is g1 cs El) as (L & HL & Hlen & Hall)
  end.
  destruct (contrast_title (background p) (title_color p)) as [tc|] eqn:Ec; [|discriminate].
  destruct (mpl_to_rgb tc); [|discriminate].
  injection Hd as <-. exists L, tc. cbn [commands facecolor fig_size].
  rewrite HL. split; [reflexivity|]. split; [rewrite Hlen, length_seq; reflexivity|].
  split; [exact Hall|]. split; [apply (contrast_title_cases _ _ _ Ec)|].
  split; reflexivity.
Qed.

Lemma py_int16_empty : py_int16 "" = None.
Proof. reflexivity. Qed.

Lemma substring_4_short (t : string) :
  (String.length t <= 4)%nat -> substring 4 2 t = ""%string.
Proof.
  intro Ht.
  destruct t as [|a [|b [|c [|d [|e t]]]]]; cbn in Ht |- *; try reflexivity. lia.
Qed.

Lemma hex_to_rgb_short (s : string) :
  (String.length (lstrip_hash s) <= 4)%nat -> hex_to_rgb s = None.
Proof.
  intro Hs. unfold hex_to_rgb. rewrite (substring_4_short _ Hs), py_int16_empty.
  destruct (py_int16 (substring 0 2 (lstrip_hash s))), (py_int16 (substring 2 2 (lstrip_hash s)));
    reflexivity.
Qed.

(** X8: a background that keeps at most four characters once its leading
    ["#"] are stripped (the short forms ["#rgb"] and ["#rgba"] matplotlib
    accepts) makes [render_poster] raise [ValueError]: the contrast fix reads
    three two-digit slices and the third one is empty. *)
Theorem render_short_background_raises (e g : PyS * NpS) (p : Params)
  (Hb : (String.length (lstrip_hash (background p)) <= 4)%nat) :
  outcome (fst (render_figure e p g)) = Some ValueError.
Proof.
  assert (Hc : draw_outcome p = Some ValueError).
  { unfold draw_outcome. destruct ((width p <? 0) || (height p <? 0))%Z; [reflexivity|].
    destruct (mpl_to_rgb (background p)); [|reflexivity].
    unfold contrast_title. rewrite (hex_to_rgb_short _ Hb). reflexivity. }
  unfold render_figure. destruct (seed p) as [s|].
  - destruct ((0 <=? s) && (s <? 2 ^ 32))%Z; [|reflexivity].
    destruct (draw_poster_outcome p (py_seed s, np_seed s)) as [E|E]; rewrite E;
      [exact Hc | reflexivity].
  - destruct (draw_poster_outcome p e) as [E|E]; rewrite E; [exact Hc | reflexivity].
Qed.

End Render.

Lemma hex_white : hex_to_rgb "#FFFFFF" = Some (1, 1, 1).
Proof. replace (1 : R) with (IZR 255 / 255) by field. reflexivity. Qed.

Lemma hex_black : hex_to_rgb "#000000" = Some (0, 0, 0).
Proof. replace (0 : R) with (IZR 0 / 255) by field. reflexivity. Qed.

(** X9: when the background and the title color both parse as hex, the
    title color the contrast fix settles on parses too, and its luminance
    differs from the background's by at least 0.5. *)
Theorem contrast_title_gap (bg tc : string) (b t : Color)
  (Hb : hex_to_rgb bg = Some b) (Ht : hex_to_rgb tc = Some t) :
  exists c u, contrast_title bg tc = Ok c /\ hex_to_rgb c = Some u /\
              1/2 <= Rabs (luminance b - luminance u).
Proof.
  unfold contrast_title. rewrite Hb, Ht.
  destruct (Rlt_dec (Rabs (luminance b - luminance t)) (1/2)) as [Hlt|Hge].
  - destruct (Rlt_dec (luminance b) (1/2)) as [Hl|Hl].
    + exists "#FFFFFF"%string, (1, 1, 1). split; [reflexivity|]. split; [exact hex_white|].
      assert (H1 : luminance (1, 1, 1) = 1) by (cbn; lra).
      rewrite H1, Rabs_left1; lra.
    + exists "#000000"%string, (0, 0, 0). split; [reflexivity|]. split; [exact hex_black|].
      assert (H0 : luminance (0, 0, 0) = 0) by (cbn; lra).
      rewrite H0, Rabs_right; lra.
  - exists tc, t. split; [reflexivity|]. split; [exact Ht | lra].
Qed.

(** The hex digits and their values. *)
Definition hex_table : list (ascii * Z) :=
  [("0", 0); ("1", 1); ("2", 2); ("3", 3); ("4", 4); ("5", 5); ("6", 6); ("7", 7);
   ("8", 8); ("9", 9); ("a", 10); ("b", 11); ("c", 12); ("d", 13); ("e", 14); ("f", 15);
   ("A", 10); ("B", 11); ("C", 12); ("D", 13); ("E", 14); ("F", 15)]%char%Z.

Lemma hex_digit_table (c : ascii) (d : Z) : hex_digit c = Some d -> In (c, d) hex_table.
Proof.
  destruct c as [[] [] [] [] [] [] [] []]; vm_compute; intro Hd; try discriminate;
    injection Hd as <-; solve [repeat (first [left; reflexivity | right])].
Qed.

Lemma hex_digit_range (c : ascii) (d : Z) : hex_digit c = Some d -> (0 <= d <= 15)%Z.
Proof.
  intro Hd. apply hex_digit_table in Hd. unfold hex_table in Hd.
  repeat (destruct Hd as [Hd|Hd]; [injection Hd as _ <-; lia|]). destruct Hd.
Qed.

Lemma hex_digit_not_hash (c : ascii) (d : Z) : hex_digit c = Some d -> Ascii.eqb c "#" = false.
Proof.
  intro Hd. destruct (Ascii.eqb_spec c "#") as [->|]; [vm_compute in Hd; discriminate | reflexivity].
Qed.

Lemma hex2_table :
  forallb (fun '(c1, d1) => forallb (fun '(c2, d2) =>
      match py_int16 (String c1 (String c2 EmptyString)) with
      | Some v => Z.eqb v (16 * d1 + d2)
      | None => false
      end) hex_table) hex_table = true.
Proof. vm_compute. reflexivity. Qed.

(** [int(s, 16)] on two hex digits. *)
Lemma py_int16_hex2 (c1 c2 : ascii) (d1 d2 : Z) :
  hex_digit c1 = Some d1 -> hex_digit c2 = Some d2 ->
  py_int16 (String c1 (String c2 EmptyString)) = Some (16 * d1 + d2)%Z.
Proof.
  intros H1 H2. apply hex_digit_table in H1, H2.
  pose proof hex2_table as Ht. rewrite forallb_forall in Ht.
  specialize (Ht _ H1). cbv beta iota in Ht. rewrite forallb_forall in Ht.
  specialize (Ht _ H2). cbv beta iota in Ht.
  destruct (py_int16 _) as [v|]; [|discriminate]. apply Z.eqb_eq in Ht. subst v. reflexivity.
Qed.

Lemma hex2_unit (d1 d2 : Z) :
  (0 <= d1 <= 15)%Z -> (0 <= d2 <= 15)%Z -> in_unit (IZR (16 * d1 + d2) / 255).
Proof.
  intros H1 H2. assert (Hv : 0 <= IZR (16 * d1 + d2) <= 255).
  { split; [apply IZR_le; lia | replace 255 with (IZR 255) by reflexivity; apply IZR_le; lia]. }
  unfold in_unit. split.
  - apply Rmult_le_pos; [lra | left; apply Rinv_0_lt_compat; lra].
  - apply (Rmult_le_reg_r 255); [lra|]. field_simplify; lra.
Qed.

(** X10: for a color of the form ["#rrggbb"] (the strings [st.color_picker]
    returns), the contrast fix's parse and matplotlib's agree, and every
    channel lies in [[0, 1]]. *)
Theorem hex6_parse (s : string) (Hs : hex6b s = true) :
  exists c, hex_to_rgb s = Some c /\ mpl_hex_rgb s = Some c /\ color_in_unit c.
Proof.
  destruct s as [|a s]; [discriminate|].
  unfold hex6b in Hs. cbn [list_ascii_of_string] in Hs.
  destruct (Ascii.eqb_spec a "#"%char) as [->|]; [|discriminate].
  destruct s as [|c1 [|c2 [|c3 [|c4 [|c5 [|c6 [|c7 s]]]]]]];
    cbn [list_ascii_of_string List.length Nat.eqb andb] in Hs; try discriminate.
  cbn [forallb] in Hs. unfold is_hex_digit in Hs.
  repeat match type of Hs with
  | context [hex_digit ?c] =>
      let d := fresh "d" in let E := fresh "E" in
      destruct (hex_digit c) as [d|] eqn:E; cbn [andb] in Hs; [|discriminate Hs]
  end.
  exists (IZR (16 * d + d0) / 255, IZR (16 * d1 + d2) / 255, IZR (16 * d3 + d4) / 255).
  split; [|split].
  - unfold hex_to_rgb, lstrip_hash. cbn [list_ascii_of_string drop_while Ascii.eqb Bool.eqb].
    rewrite (hex_digit_not_hash _ _ E). cbn [string_of_list_ascii substring].
    rewrite (py_int16_hex2 _ _ _ _ E E0), (py_int16_hex2 _ _ _ _ E1 E2),
            (py_int16_hex2 _ _ _ _ E3 E4).
    reflexivity.
  - unfold mpl_hex_rgb. cbn [list_ascii_of_string map].
    rewrite E, E0, E1, E2, E3, E4. reflexivity.
  - cbn [color_in_unit]. repeat split; apply hex2_unit; eapply hex_digit_range; eassumption.
Qed.

Section Controls.

Context {PyS NpS : Type} `{PyRandom PyS} `{NpRandom NpS} `{MplNames}.






End Controls.

(** ** Properties of app.py *)

(** The HSL lightness of an RGB color: the mean of its largest and its
    smallest channel. *)
Definition hsl_lightness (col : Color) : R :=
  let '(r, g, b) := col in (Rmax (Rmax r g) b + Rmin (Rmin r g) b) / 2.

Lemma py_fmod_2_range (a : R) : 0 <= App1.py_fmod a 2 < 2.
Proof.
  unfold App1.py_fmod. pose proof (base_Int_part (a / 2)) as [H1 H2].
  set (k := IZR (Int_part (a / 2))) in *. lra.
Qed.

Lemma hue_rgb_cases (h c x : R) :
  App1.hue_rgb h c x = (c, x, 0) \/ App1.hue_rgb h c x = (x, c, 0) \/
  App1.hue_rgb h c x = (0, c, x) \/ App1.hue_rgb h c x = (0, x, c) \/
  App1.hue_rgb h c x = (x, 0, c) \/ App1.hue_rgb h c x = (c, 0, x).
Proof.
  unfold App1.hue_rgb. repeat destruct (Rlt_dec _ _);
    solve [repeat (first [left; reflexivity | right]); reflexivity].
Qed.

Lemma clip_color_inside (c : Color) : color_in_unit c -> clip_color c = c.
Proof.
  destruct c as [[r g] b]. cbn [color_in_unit]. intros (Hr & Hg & Hb).
  cbn [clip_color]. rewrite !clip01_inside by assumption. reflexivity.
Qed.

(** For a saturation and a lightness in [[0, 1]], the color's channels
    already lie in [[0, 1]] before [np.clip], which leaves them unchanged,
    and its HSL lightness is [l]. *)
Lemma hsl_color_props (h s l : R) :
  0 <= s <= 1 -> 0 <= l <= 1 ->
  color_in_unit (App1.hsl_rgb h s l) /\ App1.hsl_color h s l = App1.hsl_rgb h s l /\
  hsl_lightness (App1.hsl_rgb h s l) = l.
Proof.
  intros Hs Hl.
  enough (E : color_in_unit (App1.hsl_rgb h s l) /\ hsl_lightness (App1.hsl_rgb h s l) = l).
  { destruct E as [Hu Hlight]. split; [exact Hu|]. split; [|exact Hlight].
    unfold App1.hsl_color. apply clip_color_inside. exact Hu. }
  unfold App1.hsl_rgb. cbv zeta.
  set (f := App1.py_fmod (h * 6) 2). pose proof (py_fmod_2_range (h * 6)) as Hf. fold f in Hf.
  set (c := (1 - Rabs (2 * l - 1)) * s).
  set (x := c * (1 - Rabs (f - 1))).
  assert (Ha : 0 <= 1 - Rabs (2 * l - 1) /\ 1 - Rabs (2 * l - 1) <= 2 * l /\
               1 - Rabs (2 * l - 1) <= 2 - 2 * l)
    by (unfold Rabs; destruct (Rcase_abs _); lra).
  assert (Hb : 0 <= 1 - Rabs (f - 1) <= 1) by (unfold Rabs; destruct (Rcase_abs _); lra).
  assert (Hc : 0 <= c <= 1 - Rabs (2 * l - 1)) by (unfold c; nra).
  assert (Hx : 0 <= x <= c) by (unfold x; nra).
  clearbody f c x.
  destruct (hue_rgb_cases h c x) as [E|[E|[E|[E|[E|E]]]]]; rewrite E; cbv beta iota;
    (split; [cbn [color_in_unit]; unfold in_unit; lra
            | unfold hsl_lightness, Rmax, Rmin; repeat destruct (Rle_dec _ _); lra]).
Qed.

Section App1Proofs.

Context {PyS NpS : Type} `{NpRandom NpS} `{NpInterval NpS}.

Lemma list_set_length {A} (l : list A) (i : nat) (v : A) :
  List.length (App1.list_set l i v) = List.length l.
Proof.
  revert i. induction l as [|a l IH]; intros [|i]; cbn; try reflexivity. now rewrite IH.
Qed.

Lemma shuffle_from_length (i : nat) (x : list R) (g : PyS * NpS) :
  List.length (fst (App1.shuffle_from i x g)) = List.length x.
Proof.
  revert x g. induction i as [|i IH]; intros x g; [reflexivity|].
  cbn [App1.shuffle_from]. rewrite bind_eq, IH, !list_set_length. reflexivity.
Qed.

Lemma np_uniform_between `{!NpRandomOk NpS} (lo hi : R) (g : PyS * NpS) :
  lo <= hi -> lo <= fst (App1.np_uniform lo hi g) <= hi.
Proof.
  intro Hlh. unfold App1.np_uniform. rewrite bind_eq. unfold ret. cbn [fst].
  pose proof (np_sample_range g) as Hu. split; nra.
Qed.

(** What app.py's [random_palette] makes of one hue [h]: [np.clip] of the
    channels [hsl_rgb h s l], these already in [[0, 1]], for a saturation
    and a lightness drawn in their ranges; the HSL lightness is [l]. *)
Definition unclamped_hsl (s_range l_range : R * R) (c : Color) : Prop :=
  exists h s l,
    c = App1.hsl_color h s l /\ App1.hsl_color h s l = App1.hsl_rgb h s l /\
    color_in_unit (App1.hsl_rgb h s l) /\
    fst s_range <= s <= snd s_range /\ fst l_range <= l <= snd l_range /\
    hsl_lightness (App1.hsl_rgb h s l) = l.

Lemma palette_colors_props `{!NpRandomOk NpS} (s_range l_range : R * R) (hues : list R)
  (g : PyS * NpS) :
  0 <= fst s_range <= snd s_range -> snd s_range <= 1 ->
  0 <= fst l_range <= snd l_range -> snd l_range <= 1 ->
  List.length (fst (App1.palette_colors s_range l_range hues g)) = List.length hues /\
  Forall (unclamped_hsl s_range l_range) (fst (App1.palette_colors s_range l_range hues g)).
Proof.
  intros Hs1 Hs2 Hl1 Hl2. revert g. induction hues as [|h hues IH]; intro g.
  - split; [reflexivity | constructor].
  - cbn [App1.palette_colors]. rewrite !bind_eq. unfold ret. cbn [fst List.length].
    set (s := fst (App1.np_uniform (fst s_range) (snd s_range) g)).
    assert (Hs : fst s_range <= s <= snd s_range) by (apply np_uniform_between; lra).
    set (g1 := snd (App1.np_uniform (fst s_range) (snd s_range) g)).
    set (l := fst (App1.np_uniform (fst l_range) (snd l_range) g1)).
    assert (Hl : fst l_range <= l <= snd l_range) by (apply np_uniform_between; lra).
    destruct (IH (snd (App1.np_uniform (fst l_range) (snd l_range) g1))) as [Hlen Hall].
    split; [rewrite Hlen; reflexivity|]. constructor; [|exact Hall].
    destruct (hsl_color_props h s l ltac:(lra) ltac:(lra)) as (Hu & Hclip & Hlight).
    exists h, s, l. repeat split; first [reflexivity | assumption | lra].
Qed.

(** X12: a palette of app.py's [random_palette], for saturation and
    lightness ranges within [[0, 1]], has [n] colors.  Each color comes from
    a hue [h], a saturation [s] and a lightness [l] drawn in their ranges:
    its channels before [np.clip] already lie in [[0, 1]], so the clip
    leaves them unchanged, and its HSL lightness is [l]. *)
Theorem app1_palette_colors `{!NpRandomOk NpS} (n : nat) (s_range l_range : R * R)
  (seed : option Z) (g : PyS * NpS) (cs : list Color)
  (Hs1 : 0 <= fst s_range <= snd s_range) (Hs2 : snd s_range <= 1)
  (Hl1 : 0 <= fst l_range <= snd l_range) (Hl2 : snd l_range <= 1)
  (Hcs : fst (App1.random_palette n s_range l_range seed g) = Ok cs) :
  List.length cs = n /\ Forall (unclamped_hsl s_range l_range) cs.
Proof.
  unfold App1.random_palette in Hcs. rewrite bind_eq in Hcs.
  destruct (fst (App1.np_reseed seed g)) as [u|e]; [|discriminate].
  rewrite !bind_eq in Hcs. unfold ret in Hcs. cbn [fst] in Hcs. injection Hcs as <-.
  unfold App1.np_shuffle.
  match goal with |- context [App1.palette_colors _ _ (fst ?sh) ?g'] =>
    destruct (palette_colors_props s_range l_range (fst sh) g' Hs1 Hs2 Hl1 Hl2) as [Hlen Hall]
  end.
  split; [|exact Hall].
  rewrite Hlen, shuffle_from_length, linspace_length. reflexivity.
Qed.

End App1Proofs.

(** X13: app.py's adaptive text color compares a background string with
    ["black"] only, so for every ["#rrggbb"] string (what its color picker
    returns, ["#000000"] included) the text is drawn in black. *)
Theorem app1_hex_background_black_text (s : string) (Hs : hex6b s = true) :
  App1.text_color (App1.BgStr s) = "black"%string.
Proof.
  destruct s as [|a s]; [discriminate|].
  unfold hex6b in Hs. cbn [list_ascii_of_string] in Hs.
  destruct (Ascii.eqb_spec a "#"%char) as [->|]; [|discriminate].
  reflexivity.
Qed.


Lemma list_set_app_l {A} (l1 r : list A) (k : nat) (v : A) :
  (k < List.length l1)%nat -> App1.list_set (l1 ++ r) k v = App1.list_set l1 k v ++ r.
Proof.
  revert k. induction l1 as [|a l1 IH]; intros [|k] Hk; cbn in *; try lia; try reflexivity.
  rewrite IH by lia. reflexivity.
Qed.

Lemma list_set_app_r {A} (l1 r : list A) (k : nat) (v : A) :
  (List.length l1 <= k)%nat ->
  App1.list_set (l1 ++ r) k v = l1 ++ App1.list_set r (k - List.length l1) v.
Proof.
  revert k. induction l1 as [|a l1 IH]; intros [|k] Hk; cbn in *; try lia.
  - reflexivity.
  - reflexivity.
  - rewrite IH by lia. reflexivity.
Qed.

Lemma list_set_nth {A} (l : list A) (k : nat) (d : A) :
  App1.list_set l k (nth k l d) = l.
Proof.
  revert k. induction l as [|a l IH]; intros [|k]; cbn; try reflexivity. now rewrite IH.
Qed.

(** Exchanging [x[i]] and [x[j]], [j <= i < len(x)], permutes [x]. *)
Lemma swap_permutation (x : list R) (i j : nat) :
  (j <= i)%nat -> (i < List.length x)%nat ->
  Permutation x (App1.list_set (App1.list_set x j (nth i x 0)) i (nth j x 0)).
Proof.
  intros Hji Hi.
  destruct (Nat.eq_dec j i) as [->|Hne].
  - rewrite !list_set_nth. reflexivity.
  - destruct (nth_split x 0 (Nat.lt_trans j i _ ltac:(lia) Hi)) as (l1 & l2 & Hx & Hl1).
    assert (Hi2 : (i - S j < List.length l2)%nat).
    { rewrite Hx, length_app in Hi. cbn in Hi. lia. }
    destruct (nth_split l2 0 Hi2) as (m1 & m2 & Hl2 & Hm1).
    set (xj := nth j x 0) in *. set (xi := nth i x 0).
    assert (Exi : xi = nth (i - S j) l2 0).
    { unfold xi. rewrite Hx, app_nth2 by lia. rewrite Hl1.
      replace (i - j)%nat with (S (i - S j)) by lia. reflexivity. }
    rewrite <- Exi in Hl2. clearbody xi xj.
    rewrite Hx, Hl2.
    rewrite list_set_app_r by lia. rewrite Hl1, Nat.sub_diag. cbn [App1.list_set].
    rewrite list_set_app_r by lia. rewrite Hl1.
    replace (i - j)%nat with (S (List.length m1)) by lia. cbn [App1.list_set].
    rewrite list_set_app_r by lia. rewrite Nat.sub_diag. cbn [App1.list_set].
    apply Permutation_app_head.
    transitivity (xj :: xi :: m1 ++ m2); [apply perm_skip; symmetry; apply Permutation_middle|].
    transitivity (xi :: xj :: m1 ++ m2); [apply perm_swap|].
    apply perm_skip. apply Permutation_middle.
Qed.

Section Shuffle.

Context {PyS NpS : Type} `{NpInterval NpS}.

Lemma np_interval_range `{!NpIntervalOk NpS} (n : nat) (g : PyS * NpS) :
  (fst (App1.np_interval n g) <= n)%nat.
Proof.
  destruct g as [ps ns]. unfold App1.np_interval.
  pose proof (np_random_interval_range n ns) as Hj.
  destruct (np_random_interval n ns). exact Hj.
Qed.

Lemma shuffle_from_permutation `{!NpIntervalOk NpS} (i : nat) (x : list R) (g : PyS * NpS) :
  (i < List.length x)%nat -> Permutation x (fst (App1.shuffle_from i x g)).
Proof.
  revert x g. induction i as [|i IH]; intros x g Hi; [reflexivity|].
  cbn [App1.shuffle_from]. rewrite bind_eq.
  pose proof (np_interval_range (S i) g) as Hj.
  set (j := fst (App1.np_interval (S i) g)) in *.
  eapply Permutation_trans; [apply (swap_permutation x (S i) j Hj Hi)|].
  apply IH. rewrite !list_set_length. lia.
Qed.

(** X15: [np.random.shuffle] only permutes its array: app.py's palette
    hues are the [n] hues [k / n] in some order. *)
Theorem np_shuffle_permutation `{!NpIntervalOk NpS} (x : list R) (g : PyS * NpS) :
  Permutation x (fst (App1.np_shuffle x g)).
Proof.
  unfold App1.np_shuffle. destruct x as [|a x]; [reflexivity|].
  apply shuffle_from_permutation. cbn. lia.
Qed.

End Shuffle.

(** ** Concrete inputs for the further properties *)

Definition const_interval : NpInterval unit := {|
  np_random_interval := fun _ s => (0%nat, s)
|}.

Lemma const_interval_ok : @NpIntervalOk unit const_interval.
Proof. split. intros n t. cbn. lia. Qed.

(** [default_params] with the short background ["#FFF"]. *)
Definition short_background : Params := {|
  style := "pastel"; shape_type := "blob"; n_layers := 30; wobble := 4/10;
  background := "#FFF"; title_color := "#000000"; seed := None;
  shadow_offset := 2/100; brightness_strength := 3/10;
  alpha_min := 6/10; alpha_max := 9/10; light_angle := 45;
  rotation_range := 3/10; width := 1200; height := 1700
|}.

Lemma two_circles_renders :
  exists f, fst (@render_figure unit unit (const_py 0) (const_np 0) some_names (tt, tt)
                   two_circles (tt, tt)) = Ok f.
Proof.
  unfold render_figure. cbn [seed two_circles].
  replace ((0 <=? 42) && (42 <? 2 ^ 32))%Z with true by reflexivity.
  destruct (fst (draw_poster two_circles _)) as [f|e] eqn:E; [eauto|].
  exfalso.
  assert (Ha : in_unit (alpha_min two_circles) /\ in_unit (alpha_max two_circles))
    by (cbn [alpha_min alpha_max two_circles]; unfold in_unit; lra).
  pose proof (@draw_poster_outcome_unit unit unit (const_py 0) (const_np 0) some_names
                (const_py_ok 0 ltac:(lra)) two_circles
                (@py_seed unit (const_py 0) 42, @np_seed unit (const_np 0) 42)
                (proj1 Ha) (proj2 Ha)) as Ho.
  rewrite E in Ho. rewrite draw_outcome_white_black in Ho by reflexivity.
  discriminate Ho.
Qed.

Lemma polygon_outline_points_witness :
  @PyRandomOk unit (const_py 0) /\
  let '(x, y) := fst (@shape unit unit (const_py 0) (const_np 0) (1/2, 1/2) (1/10) 1000 0
                        "polygon" (tt, tt)) in
  (4 <= List.length x <= 9)%nat /\ List.length y = List.length x /\
  Forall (fun pt => sqdist (1/2) (1/2) pt = (1/10) ^ 2) (combine x y).
Proof.
  split; [apply const_py_ok; lra|].
  apply (@polygon_outline_points unit unit (const_py 0) (const_np 0)
           (const_py_ok 0 ltac:(lra)) (1/2) (1/2) (1/10) 0 1000 (tt, tt)).
Defined.

Lemma blob_outline_annulus_witness :
  @NpRandomOk unit (const_np 0) /\ 0 < 2/10 /\ 0 <= 4/10 < 2 /\
  let '(x, y) := fst (@blob unit unit (const_np 0) (1/2, 1/2) (2/10) 1000 (4/10) (tt, tt)) in
  List.length x = 1000%nat /\ List.length y = 1000%nat /\
  Forall (fun pt => (2/10 * (1 - 4/10 / 2)) ^ 2 <= sqdist (1/2) (1/2) pt
                    <= (2/10 * (1 + 4/10 / 2)) ^ 2) (combine x y).
Proof.
  split; [apply const_np_ok; lra|]. split; [lra|]. split; [lra|].
  apply (@blob_outline_annulus unit unit (const_np 0)
           (const_np_ok 0 ltac:(lra)) (1/2) (1/2) (2/10) (4/10) 1000 (tt, tt)); lra.
Defined.

Lemma layer_alpha_between_witness :
  @PyRandomOk unit (const_py 0) /\
  exists xs ys x y c alpha,
    fst (@layer unit unit (const_py 0) (const_np 0) reversed_alpha gray_palette 0 (tt, tt)) =
      [Fill xs ys (0, 0, 0) (35/100); Fill x y c alpha] /\
    Rmin (9/10) (1/10) <= alpha <= Rmax (9/10) (1/10).
Proof.
  split; [apply const_py_ok; lra|].
  apply (@layer_alpha_between unit unit (const_py 0) (const_np 0)
           (const_py_ok 0 ltac:(lra)) reversed_alpha gray_palette 0 (tt, tt)).
Defined.

Lemma render_figure_layout_witness :
  exists f,
    fst (@render_figure unit unit (const_py 0) (const_np 0) some_names (tt, tt)
           two_circles (tt, tt)) = Ok f /\
    exists L tc,
      commands f = List.concat L ++ title_texts two_circles tc /\
      List.length L = Z.to_nat (n_layers two_circles) /\ Forall shadow_lit_pair L /\
      (tc = title_color two_circles \/ tc = "#FFFFFF"%string \/ tc = "#000000"%string) /\
      facecolor f = background two_circles /\
      fig_size f = (IZR (width two_circles) / dpi, IZR (height two_circles) / dpi).
Proof.
  destruct two_circles_renders as [f Hf]. exists f. split; [exact Hf|].
  apply (@render_figure_layout unit unit (const_py 0) (const_np 0) some_names (tt, tt) (tt, tt)
           two_circles f Hf).
Defined.

Lemma render_short_background_raises_witness :
  (String.length (lstrip_hash (background short_background)) <= 4)%nat /\
  mpl_hex_rgb (background short_background) <> None /\
  outcome (fst (@render_figure unit unit (const_py 0) (const_np 0) some_names (tt, tt)
                 short_background (tt, tt))) = Some ValueError.
Proof.
  split; [cbn; lia|]. split; [cbn; discriminate|].
  apply (@render_short_background_raises unit unit (const_py 0) (const_np 0) some_names
           (tt, tt) (tt, tt) short_background).
  cbn. lia.
Defined.

Lemma contrast_title_gap_witness :
  hex_to_rgb "#FFFFFF" = Some (1, 1, 1) /\ hex_to_rgb "#000000" = Some (0, 0, 0) /\
  exists c u, contrast_title "#FFFFFF" "#000000" = Ok c /\ hex_to_rgb c = Some u /\
              1/2 <= Rabs (luminance (1, 1, 1) - luminance u).
Proof.
  split; [exact hex_white|]. split; [exact hex_black|].
  apply (contrast_title_gap "#FFFFFF" "#000000" (1, 1, 1) (0, 0, 0) hex_white hex_black).
Defined.

Lemma hex6_parse_witness :
  hex6b "#1e90ff" = true /\
  exists c, hex_to_rgb "#1e90ff" = Some c /\ mpl_hex_rgb "#1e90ff" = Some c /\ color_in_unit c.
Proof.
  split; [reflexivity|]. apply (hex6_parse "#1e90ff"). reflexivity.
Defined.


Lemma app1_palette_colors_witness :
  exists cs,
    fst (@App1.random_palette unit unit (const_np 0) const_interval 3
           (3/10, 9/10) (3/10, 7/10) None (tt, tt)) = Ok cs /\
    List.length cs = 3%nat /\ Forall (unclamped_hsl (3/10, 9/10) (3/10, 7/10)) cs.
Proof.
  destruct (fst (@App1.random_palette unit unit (const_np 0) const_interval 3
                  (3/10, 9/10) (3/10, 7/10) None (tt, tt))) as [cs|e] eqn:E;
    [|discriminate E].
  exists cs. split; [reflexivity|].
  apply (@app1_palette_colors unit unit (const_np 0) const_interval
           (const_np_ok 0 ltac:(lra)) 3 (3/10, 9/10) (3/10, 7/10) None (tt, tt) cs);
    cbn [fst snd]; try lra. exact E.
Defined.

Lemma app1_hex_background_black_text_witness :
  hex6b "#000000" = true /\ App1.text_color (App1.BgStr "#000000") = "black"%string.
Proof.
  split; [reflexivity|]. apply app1_hex_background_black_text. reflexivity.
Defined.


Lemma np_shuffle_permutation_witness :
  @NpIntervalOk unit const_interval /\
  Permutation (linspace 0 1 4 false)
    (fst (@App1.np_shuffle unit unit const_interval (linspace 0 1 4 false) (tt, tt))).
Proof.
  split; [exact const_interval_ok|].
  apply (@np_shuffle_permutation unit unit const_interval const_interval_ok).
Defined.
